(** * CRM-Prototype: authorisation and tenant scoping of the Express server

    A shallow embedding of [server/auth.ts], [server/routes.ts] and the
    tables of [db/schema.ts].  The database is an explicit state that is
    threaded through every handler; a statement that the driver rejects
    throws, and the handler's [try]/[catch] turns the throw into a 500
    while keeping the rows written so far (the server opens no
    transaction).  The Express application is the ordered list of its
    layers, in the order in which [registerRoutes] registers them. *)

From Stdlib Require Import ZArith Lia Ascii String.
From stdpp Require Import base option list sorting gmap strings pretty.

Local Open Scope Z_scope.
Local Open Scope string_scope.

(** ** JSON values

    The [jsonb] columns ([roles.permissions], [objects.fields]) hold JSON
    objects; their members are modelled as scalars. *)

Inductive JVal :=
  | JNull
  | JBool (b : bool)
  | JNum (n : Z)
  | JStr (s : string).

#[global] Instance JVal_eq_dec : EqDecision JVal.
Proof. solve_decision. Defined.

(** JavaScript truthiness, as used by [if (value)]. *)
Definition truthy (v : JVal) : bool :=
  match v with
  | JNull => false
  | JBool b => b
  | JNum n => negb (bool_decide (n = 0))
  | JStr s => negb (bool_decide (s = ""))
  end.

(** Truthiness of an optional query-string parameter: [undefined] and the
    empty string are falsy. *)
Definition truthy_param (p : option string) : bool :=
  match p with
  | Some s => negb (bool_decide (s = ""))
  | None => false
  end.

(** [r.permissions.flag === true] *)
Definition is_true (perms : gmap string JVal) (flag : string) : bool :=
  bool_decide (perms !! flag = Some (JBool true)).

(** ** Rows of [db/schema.ts]

    The [createdAt] defaults of [companies], [roles], [user_roles] and
    [users] are never read by the server and are left out. *)

Module Company.
Record t := mk { id : Z; name : string }.
End Company.

Module Role.
Record t := mk { id : Z; name : string; permissions : gmap string JVal }.
End Role.

Module UserRole.
Record t := mk { userId : Z; roleId : Z }.
End UserRole.

Module User.
Record t := mk { id : Z; username : string; password : string; companyId : Z }.
End User.

Module Object.
Record t := mk {
  id : Z;
  name : string;
  type : string;
  description : option string;
  fields : gmap string JVal;
  createdBy : option Z;
  companyId : Z;
  createdAt : Z;
  updatedAt : Z
}.
End Object.

#[global] Instance Company_eq_dec : EqDecision Company.t.
Proof. solve_decision. Defined.
#[global] Instance Role_eq_dec : EqDecision Role.t.
Proof. solve_decision. Defined.
#[global] Instance UserRole_eq_dec : EqDecision UserRole.t.
Proof. solve_decision. Defined.
#[global] Instance User_eq_dec : EqDecision User.t.
Proof. solve_decision. Defined.
#[global] Instance Object_eq_dec : EqDecision Object.t.
Proof. solve_decision. Defined.

(** ** The database

    One list of rows per table the server touches, and the sequence behind
    each [generatedAlwaysAsIdentity] column.  No route of the server
    reads or writes [object_relations] or [object_types]. *)

Record Db := mkDb {
  companies : list Company.t;
  roles : list Role.t;
  userRoles : list UserRole.t;
  users : list User.t;
  objects : list Object.t;
  companies_seq : Z;
  roles_seq : Z;
  users_seq : Z;
  objects_seq : Z
}.

Definition empty_db : Db :=
  mkDb [] [] [] [] [] 1 1 1 1.

(** ** Statements

    A statement runs against the database and either returns a value or
    throws; either way it leaves a database behind.  There is no rollback:
    what earlier statements of a handler wrote stays written. *)

Definition Query (A : Type) : Type := Db → option A * Db.

Definition ret {A} (a : A) : Query A := λ db, (Some a, db).

Definition throw {A} : Query A := λ db, (None, db).

Definition bind {A B} (m : Query A) (k : A → Query B) : Query B :=
  λ db, match m db with
        | (Some a, db') => k a db'
        | (None, db') => (None, db')
        end.

Notation "'await' x ← m ; k" := (bind m (λ x, k))
  (at level 10, x name, m at level 100, k at level 200,
   format "'[v' 'await'  x  ←  m ; '/' k ']'").

(** A [select]: reads, never writes. *)
Definition select {A} (f : Db → A) : Query A := λ db, (Some (f db), db).

(** [try { ... } catch (error) { ... }] around the awaited statements *)
Definition try_catch {A} (m : Query A) (handler : A) : Db → A * Db :=
  λ db, match m db with
        | (Some a, db') => (a, db')
        | (None, db') => (handler, db')
        end.

Definition mem_id {A} (key : A → Z) (i : Z) (rows : list A) : bool :=
  bool_decide (i ∈ key <$> rows).

(** The range of PostgreSQL's [integer], the type of every id column: a
    number outside of it makes the statement it is a parameter of
    fail. *)
Definition int4 (i : Z) : bool :=
  bool_decide (-2147483648 ≤ i ≤ 2147483647)%Z.

(** An [INSERT] takes the next value of the identity sequence when it
    builds the row, before the constraints are checked, and a sequence
    is not set back when the statement is rejected: the value is
    gone. *)
Definition nextval_companies (db : Db) : Db :=
  mkDb (companies db) (roles db) (userRoles db) (users db) (objects db)
       (companies_seq db + 1) (roles_seq db) (users_seq db) (objects_seq db).

Definition nextval_roles (db : Db) : Db :=
  mkDb (companies db) (roles db) (userRoles db) (users db) (objects db)
       (companies_seq db) (roles_seq db + 1) (users_seq db) (objects_seq db).

Definition nextval_users (db : Db) : Db :=
  mkDb (companies db) (roles db) (userRoles db) (users db) (objects db)
       (companies_seq db) (roles_seq db) (users_seq db + 1) (objects_seq db).

Definition nextval_objects (db : Db) : Db :=
  mkDb (companies db) (roles db) (userRoles db) (users db) (objects db)
       (companies_seq db) (roles_seq db) (users_seq db) (objects_seq db + 1).

(** [db.insert(companies).values({ name }).returning()];
    [name] is [NOT NULL], [id] comes from the sequence. *)
Definition insert_companies (name : option string) : Query Company.t :=
  λ db, match name with
        | None => (None, nextval_companies db)
        | Some n =>
            let row := Company.mk (companies_seq db) n in
            (Some row,
             mkDb (companies db ++ [row]) (roles db) (userRoles db) (users db)
                  (objects db) (companies_seq db + 1) (roles_seq db)
                  (users_seq db) (objects_seq db))
        end.

(** [db.insert(roles).values({ name, permissions }).returning()];
    [name] is [UNIQUE]. *)
Definition insert_roles (name : string) (permissions : gmap string JVal)
  : Query Role.t :=
  λ db, if bool_decide (name ∈ Role.name <$> roles db)
        then (None, nextval_roles db)
        else
          let row := Role.mk (roles_seq db) name permissions in
          (Some row,
           mkDb (companies db) (roles db ++ [row]) (userRoles db) (users db)
                (objects db) (companies_seq db) (roles_seq db + 1)
                (users_seq db) (objects_seq db)).

(** [db.insert(users).values({ username, password, companyId }).returning()];
    [username] is [NOT NULL] and [UNIQUE], [companyId] references
    [companies.id]. *)
Definition insert_users (username : option string) (password : string)
    (companyId : Z) : Query User.t :=
  λ db, match username with
        | None => (None, nextval_users db)
        | Some name =>
            if bool_decide (name ∈ User.username <$> users db)
               || negb (mem_id Company.id companyId (companies db))
            then (None, nextval_users db)
            else
              let row := User.mk (users_seq db) name password companyId in
              (Some row,
               mkDb (companies db) (roles db) (userRoles db)
                    (users db ++ [row]) (objects db) (companies_seq db)
                    (roles_seq db) (users_seq db + 1) (objects_seq db))
        end.

(** [db.insert(userRoles).values({ userId, roleId })]; the pair is the
    primary key, both columns are [NOT NULL] foreign keys. *)
Definition insert_userRoles (userId roleId : option Z) : Query unit :=
  λ db, match userId, roleId with
        | Some u, Some r =>
            if bool_decide (UserRole.mk u r ∈ userRoles db)
               || negb (mem_id User.id u (users db))
               || negb (mem_id Role.id r (roles db))
            then (None, db)
            else
              (Some (),
               mkDb (companies db) (roles db)
                    (userRoles db ++ [UserRole.mk u r]) (users db)
                    (objects db) (companies_seq db) (roles_seq db)
                    (users_seq db) (objects_seq db))
        | _, _ => (None, db)
        end.

(** The JSON body of the object endpoints, as [values] and [set] read
    it: one key per column of [objects], [None] when the key is absent,
    [Some None] when it is [null], [Some (Some v)] otherwise.  The keys
    [id], [createdAt] and [updatedAt] are left out of the model. *)
Record ObjectBody := mkObjectBody {
  b_name : option (option string);
  b_type : option (option string);
  b_description : option (option string);
  b_fields : option (option (gmap string JVal));
  b_createdBy : option (option Z);
  b_companyId : option (option Z)
}.

Definition set_objects (rows : list Object.t) (seq : Z) (db : Db) : Db :=
  mkDb (companies db) (roles db) (userRoles db) (users db) rows
       (companies_seq db) (roles_seq db) (users_seq db) seq.

Definition fk_ok {A} (key : A → Z) (v : option Z) (rows : list A) : bool :=
  match v with
  | None => true
  | Some i => mem_id key i rows
  end.

(** [db.insert(objects).values(values).returning()] at time [now]:
    [name], [type], [fields] and [companyId] are [NOT NULL]; [createdBy]
    and [companyId] are foreign keys; the timestamps default to [now]. *)
Definition insert_objects (now : Z) (values : ObjectBody) : Query Object.t :=
  λ db, match mjoin (b_name values), mjoin (b_type values),
              mjoin (b_fields values), mjoin (b_companyId values) with
        | Some n, Some t, Some f, Some c =>
            if fk_ok User.id (mjoin (b_createdBy values)) (users db)
               && mem_id Company.id c (companies db)
            then
              let row := Object.mk (objects_seq db) n t
                           (mjoin (b_description values)) f
                           (mjoin (b_createdBy values)) c now now in
              (Some row, set_objects (objects db ++ [row]) (objects_seq db + 1) db)
            else (None, nextval_objects db)
        | _, _, _, _ => (None, nextval_objects db)
        end.

(** One column of [UPDATE ... SET]: an absent key keeps the old value. *)
Definition patch_col {A} (old : A) (new : option A) : A := default old new.

(** The row after [SET], or [None] when a [NOT NULL] column is set to
    [null]. *)
Definition patch_row (set : ObjectBody) (o : Object.t) : option Object.t :=
  match b_name set, b_type set, b_fields set, b_companyId set with
  | Some None, _, _, _ | _, Some None, _, _
  | _, _, Some None, _ | _, _, _, Some None => None
  | n, t, f, c =>
      Some (Object.mk (Object.id o)
              (patch_col (Object.name o) (mjoin n))
              (patch_col (Object.type o) (mjoin t))
              (patch_col (Object.description o) (b_description set))
              (patch_col (Object.fields o) (mjoin f))
              (patch_col (Object.createdBy o) (b_createdBy set))
              (patch_col (Object.companyId o) (mjoin c))
              (Object.createdAt o) (Object.updatedAt o))
  end.

Definition no_values (set : ObjectBody) : bool :=
  match set with
  | mkObjectBody None None None None None None => true
  | _ => false
  end.

Definition row_ok (db : Db) (o : Object.t) : bool :=
  fk_ok User.id (Object.createdBy o) (users db)
  && mem_id Company.id (Object.companyId o) (companies db).

(** [UPDATE] of every row whose [id] is [i]; [None] as soon as one new
    row breaks a constraint. *)
Fixpoint update_rows (db : Db) (set : ObjectBody) (i : Z)
    (rows : list Object.t) : option (list Object.t * list Object.t) :=
  match rows with
  | [] => Some ([], [])
  | o :: rest =>
      '(rest', returned) ← update_rows db set i rest;
      if bool_decide (Object.id o = i) then
        o' ← patch_row set o;
        if row_ok db o' then Some (o' :: rest', o' :: returned) else None
      else Some (o :: rest', returned)
  end.

(** [db.update(objects).set(set).where(eq(objects.id, i)).returning()];
    the query builder refuses an empty [set] ("No values to set"). *)
Definition update_objects (set : ObjectBody) (i : Z) : Query (list Object.t) :=
  λ db, if no_values set then (None, db)
        else match update_rows db set i (objects db) with
             | Some (rows, returned) =>
                 (Some returned, set_objects rows (objects_seq db) db)
             | None => (None, db)
             end.

(** [db.delete(objects).where(eq(objects.id, i))] *)
Definition delete_objects (i : Z) : Query unit :=
  λ db, (Some (),
         set_objects (filter (λ o, Object.id o ≠ i) (objects db))
                     (objects_seq db) db).

(** ** What the server takes from its platform

    PostgreSQL's [ILIKE] and text collation, what the driver makes of a
    bare string handed over as a [WHERE] clause ([None] when the
    statement is rejected), and Node's [scrypt] and hex codec. *)

Class Platform := {
  ilike : string → string → bool;
  text_le : string → string → bool;
  raw_where : string → option (Object.t → bool);
  scrypt : string → string → list Byte.byte;
  to_hex : list Byte.byte → string;
  from_hex : string → list Byte.byte
}.

#[global] Instance byte_eq_dec : EqDecision Byte.byte := Byte.byte_eq_dec.

Section Server.
Context `{Platform}.

(** *** [crypto] of [auth.ts] *)

(** [crypto.hash]; [salt] is [randomBytes(16).toString("hex")].  A
    password that is not a string makes [scrypt] throw. *)
Definition crypto_hash (salt : string) (password : option string) : Query string :=
  match password with
  | Some pw => ret (to_hex (scrypt pw salt) ++ "." ++ salt)
  | None => throw
  end.

(** The text before the first ["."] and, when there is one, the text
    between it and the next: the first two cells of [split(".")]. *)
Fixpoint split_dot (s : string) : string * option string :=
  match s with
  | EmptyString => (EmptyString, None)
  | String c rest =>
      if bool_decide (c = "."%char) then
        (EmptyString, Some (fst (split_dot rest)))
      else
        let '(hd, tl) := split_dot rest in (String c hd, tl)
  end.

(** [timingSafeEqual] throws on buffers of different length. *)
Definition timingSafeEqual (a b : list Byte.byte) : Query bool :=
  if bool_decide (length a = length b) then ret (bool_decide (a = b))
  else throw.

(** [crypto.compare] *)
Definition crypto_compare (suppliedPassword : option string)
    (storedPassword : string) : Query bool :=
  match split_dot storedPassword, suppliedPassword with
  | (hashedPassword, Some salt), Some supplied =>
      timingSafeEqual (from_hex hashedPassword) (scrypt supplied salt)
  | _, _ => throw
  end.

(** *** [req.user] *)

(** [getUserRoles]: [user_roles] joined with [roles], for one user. *)
Definition getUserRoles (userId : Z) (db : Db) : list Role.t :=
  ur ← filter (λ ur, UserRole.userId ur = userId) (userRoles db);
  filter (λ r, Role.id r = UserRole.roleId ur) (roles db).

(** A user row with its [roles] array attached, as passport keeps it in
    [req.user]. *)
Record ReqUser := mkReqUser {
  row : User.t;
  user_roles : list Role.t
}.

(** [passport.deserializeUser]: from the id kept in the session to
    [req.user]; no row, no user. *)
Definition deserializeUser (id : Z) (db : Db) : option ReqUser :=
  user ← head (filter (λ u, User.id u = id) (users db));
  Some (mkReqUser user (getUserRoles (User.id user) db)).

(** *** Requests and responses *)

Record RegisterBody := mkRegisterBody {
  r_username : option string;
  r_password : option string;
  r_companyName : option string
}.

Record LoginBody := mkLoginBody {
  l_username : option string;
  l_password : option string
}.

(** The entries of [JSON.parse(fields)] in [Object.entries] order;
    [FieldsThrow] when parsing or enumerating throws. *)
Inductive FieldsParam :=
  | FieldsAbsent
  | FieldsThrow
  | FieldsEntries (entries : list (string * JVal)).

Record ObjectsQuery := mkObjectsQuery {
  q_search : option string;
  q_type : option string;
  q_sortBy : option string;
  q_sortOrder : option string;
  q_fields : FieldsParam
}.

(** Method and path of a request under [/api], with the route parameters
    after [parseInt] ([None] for [NaN]) and the parsed body. *)
Inductive Endpoint :=
  | POST_auth_register (body : RegisterBody)
  | POST_auth_login (body : LoginBody)
  | POST_auth_logout
  | GET_user
  | GET_roles
  | POST_users_roles (userId : option Z) (roleId : option Z)
  | GET_users
  | GET_objects (query : ObjectsQuery)
  | GET_object_types
  | POST_objects (body : ObjectBody)
  | PUT_objects (id : option Z) (body : ObjectBody)
  | DELETE_objects (id : option Z)
  | Other_api.

(** A request: the user id its session holds, if any, what it asks for,
    and the clock and random salt the server draws while serving it. *)
Record Request := mkRequest {
  session : option Z;
  endpoint : Endpoint;
  now : Z;
  salt : string
}.

(** A user as serialised into a response: the [password] key may have
    been taken out, the [roles] key may have been put in. *)
Record UserJson := mkUserJson {
  j_id : Z;
  j_username : string;
  j_password : option string;
  j_companyId : Z;
  j_roles : option (list Role.t)
}.

(** [{ ...user, roles }] *)
Definition with_roles (user : User.t) (roles : list Role.t) : UserJson :=
  mkUserJson (User.id user) (User.username user) (Some (User.password user))
             (User.companyId user) (Some roles).

(** [const { password: _, ...user } = u] *)
Definition omit_password (u : UserJson) : UserJson :=
  mkUserJson (j_id u) (j_username u) None (j_companyId u) (j_roles u).

Inductive Json :=
  | Message (message : string)
  | MessageUser (message : string) (user : UserJson)
  | OneUser (user : UserJson)
  | ManyUsers (users : list UserJson)
  | ManyRoles (roles : list Role.t)
  | OneObject (object : option Object.t)
  | ManyObjects (objects : list Object.t)
  | ManyStrings (strings : list string)
  | DefaultError.

Record Response := mkResponse {
  status : Z;
  json : Json
}.

(** What serving a request leaves behind: the response, the database and
    the user id in the session. *)
Record Served := mkServed {
  response : Response;
  db_after : Db;
  session_after : option Z
}.

(** [req.isAuthenticated()] *)
Definition isAuthenticated (user : option ReqUser) : bool :=
  bool_decide (is_Some user).

(** What a handler decides: the response and the session it leaves. *)
Record Reply := mkReply {
  reply_response : Response;
  reply_session : option Z
}.

(** [res.status(code).json(body)], session untouched *)
Definition send (req : Request) (code : Z) (body : Json) : Reply :=
  mkReply (mkResponse code body) (session req).

(** [req.login(user, ...)] followed by [res.json(body)]:
    [passport.serializeUser] keeps [user.id] in the session. *)
Definition login_send (id : Z) (body : Json) : Reply :=
  mkReply (mkResponse 200 body) (Some id).

(** A layer of the Express stack: [None] when the request is not for it
    or when it calls [next()]. *)
Definition Layer : Type := option ReqUser → Request → option (Db → Reply * Db).

(** ** [auth.ts] *)

(** [ensureRoleExists]: get or create by name. *)
Definition ensureRoleExists (name : string) (permissions : gmap string JVal)
  : Query Role.t :=
  await existingRole ← select (λ db, head (filter (λ r, Role.name r = name) (roles db)));
  match existingRole with
  | None => await newRole ← insert_roles name permissions; ret newRole
  | Some role => ret role
  end.

Definition adminPermissions : gmap string JVal :=
  list_to_map [("all", JBool true); ("create", JBool true);
               ("read", JBool true); ("update", JBool true);
               ("delete", JBool true); ("manageUsers", JBool true)].

Definition userPermissions : gmap string JVal :=
  list_to_map [("create", JBool true); ("read", JBool true);
               ("update", JBool true); ("delete", JBool true)].

(** [select().from(users).where(eq(users.username, username)).limit(1)];
    an [undefined] name compares to no row. *)
Definition user_by_username (username : option string) : Query (option User.t) :=
  select (λ db, head (filter (λ u, Some (User.username u) = username) (users db))).

(** The rows in hand when [POST /api/auth/register] reaches
    "Assign appropriate role". *)
Record Registration := mkRegistration {
  company : Company.t;
  adminRole : Role.t;
  userRole : Role.t;
  newUser : User.t;
  companyUsers : list User.t
}.

(** From "Create company" to "Check if this is the first user in the
    company". *)
Definition register_rows (salt : string) (body : RegisterBody)
  : Query Registration :=
  await company ← insert_companies (r_companyName body);
  await adminRole ← ensureRoleExists "admin" adminPermissions;
  await userRole ← ensureRoleExists "user" userPermissions;
  await hashedPassword ← crypto_hash salt (r_password body);
  await newUser ← insert_users (r_username body) hashedPassword (Company.id company);
  await companyUsers ←
    select (λ db, filter (λ u, User.companyId u = Company.id company) (users db));
  ret (mkRegistration company adminRole userRole newUser companyUsers).

Definition roleToAssign (reg : Registration) : Role.t :=
  if bool_decide (length (companyUsers reg) = 1%nat) then adminRole reg
  else userRole reg.

(** From "Assign appropriate role" to [userWithRoles]. *)
Definition register_role (reg : Registration) : Query UserJson :=
  await _ ← insert_userRoles (Some (User.id (newUser reg)))
                             (Some (Role.id (roleToAssign reg)));
  await userRolesList ← select (getUserRoles (User.id (newUser reg)));
  ret (with_roles (newUser reg) userRolesList).

(** [app.post("/api/auth/register", ...)] *)
Definition register (req : Request) (body : RegisterBody) : Db → Reply * Db :=
  try_catch
    (await existingUser ← user_by_username (r_username body);
     match existingUser with
     | Some _ => ret (send req 400 (Message "Username already exists"))
     | None =>
         await reg ← register_rows (salt req) body;
         await userWithRoles ← register_role reg;
         ret (login_send (j_id userWithRoles)
                (MessageUser "Registration successful"
                   (omit_password userWithRoles)))
     end)
    (send req 500 (Message "Error creating user")).

(** The verify callback of the [LocalStrategy]: [Some user] for
    [done(null, user)], [None] for [done(null, false, ...)]; a throw is
    [done(err)]. *)
Definition verify (username password : string) : Query (option UserJson) :=
  await user ← user_by_username (Some username);
  match user with
  | None => ret None
  | Some user =>
      await isMatch ← crypto_compare (Some password) (User.password user);
      if isMatch : bool then
        await userRolesList ← select (getUserRoles (User.id user));
        ret (Some (with_roles user userRolesList))
      else ret None
  end.

(** [app.post("/api/auth/login", ...)]: passport-local fails with
    "Missing credentials" before calling [verify] when a field is
    missing or empty; [next(err)] ends in Express' default error
    handler. *)
Definition login (req : Request) (body : LoginBody) : Db → Reply * Db :=
  if truthy_param (l_username body) && truthy_param (l_password body) then
    try_catch
      (await user ← verify (default "" (l_username body))
                           (default "" (l_password body));
       match user with
       | None => ret (send req 401 (Message "Invalid username or password"))
       | Some user =>
           ret (login_send (j_id user)
                  (MessageUser "Login successful" (omit_password user)))
       end)
      (send req 500 DefaultError)
  else λ db, (send req 401 (Message "Missing credentials"), db).

(** [app.post("/api/auth/logout", ...)] *)
Definition logout (req : Request) : Db → Reply * Db :=
  λ db, (mkReply (mkResponse 200 (Message "Logged out successfully")) None, db).

(** [req.user] as [res.json] would print it *)
Definition req_user_json (u : ReqUser) : UserJson :=
  with_roles (row u) (user_roles u).

(** [app.get("/api/user", ...)] *)
Definition get_user (user : option ReqUser) (req : Request) : Db → Reply * Db :=
  λ db, match user with
        | None => (send req 401 (Message "Not authenticated"), db)
        | Some u => (send req 200 (OneUser (omit_password (req_user_json u))), db)
        end.

(** [req.user?.roles?.some(r => r.name === roleName)] *)
Definition has_role (roleName : string) (user : option ReqUser) : bool :=
  match user with
  | Some u => existsb (λ r, bool_decide (Role.name r = roleName)) (user_roles u)
  | None => false
  end.

(** [app.get("/api/roles", ...)], written the same in both files *)
Definition get_roles (user : option ReqUser) (req : Request) : Db → Reply * Db :=
  if negb (has_role "admin" user) then λ db, (send req 403 (Message "Forbidden"), db)
  else
    try_catch
      (await allRoles ← select roles;
       ret (send req 200 (ManyRoles allRoles)))
      (send req 500 (Message "Error fetching roles")).

(** [req.user?.companyId] *)
Definition companyId_of (user : option ReqUser) : option Z :=
  User.companyId ∘ row <$> user.

(** The body of the role assignment, after the admin gate. *)
Definition assign_role (user : option ReqUser) (req : Request)
    (userId roleId : option Z) : Db → Reply * Db :=
  try_catch
    (await targetUser ←
       match userId with
       | Some i =>
           if int4 i then select (λ db, head (filter (λ u, User.id u = i) (users db)))
           else throw
       | None => throw
       end;
     match targetUser with
     | Some target =>
         if bool_decide (Some (User.companyId target) = companyId_of user) then
           await _ ← insert_userRoles userId roleId;
           ret (send req 200 (Message "Role assigned successfully"))
         else ret (send req 403 (Message "Forbidden"))
     | None => ret (send req 403 (Message "Forbidden"))
     end)
    (send req 500 (Message "Error assigning role")).

(** [app.post("/api/users/:userId/roles", ...)] of [auth.ts] *)
Definition post_users_roles (user : option ReqUser) (req : Request)
    (userId roleId : option Z) : Db → Reply * Db :=
  if negb (has_role "admin" user) then λ db, (send req 403 (Message "Forbidden"), db)
  else assign_role user req userId roleId.

(** The users of the caller's company, each with its roles; the
    [password] column stays in the rows. *)
Definition company_users (user : option ReqUser) (req : Request)
    (message : string) : Db → Reply * Db :=
  try_catch
    (await companyUsers ←
       select (λ db, filter (λ u, Some (User.companyId u) = companyId_of user)
                            (users db));
     await usersWithRoles ←
       select (λ db, (λ u, with_roles u (getUserRoles (User.id u) db)) <$> companyUsers);
     ret (send req 200 (ManyUsers usersWithRoles)))
    (send req 500 (Message message)).

(** [app.get("/api/users", ...)] of [auth.ts] *)
Definition get_users (user : option ReqUser) (req : Request) : Db → Reply * Db :=
  if negb (has_role "admin" user) then λ db, (send req 403 (Message "Forbidden"), db)
  else company_users user req "Failed to fetch users".

(** [app.use("/api/*", ...)]: [next()] for an authenticated request,
    401 otherwise. *)
Definition auth_middleware : Layer :=
  λ user req,
    if isAuthenticated user then None
    else Some (λ db, (send req 401 (Message "Unauthorized"), db)).

(** [checkRole(roleName)]: 403, or [next()] into the handler. *)
Definition checkRole (roleName : string) (handler : Db → Reply * Db)
    (user : option ReqUser) (req : Request) : Db → Reply * Db :=
  if negb (has_role roleName user) then λ db, (send req 403 (Message "Forbidden"), db)
  else handler.

(** ** [routes.ts] *)

(** *** The select builder of the query library

    The builder keeps one [where] and one [orderBy] in its
    configuration; [.where(...)] and [.orderBy(...)] assign them, so a
    later call takes the place of an earlier one. *)

Inductive Where :=
  | Condition (p : Object.t → bool)
  | RawString (s : string).

Record PgSelect := mkPgSelect {
  config_where : option Where;
  config_orderBy : option (Object.t → Object.t → bool)
}.

(** [db.select().from(objects)] *)
Definition select_from_objects : PgSelect := mkPgSelect None None.

Definition where_ (w : Where) (query : PgSelect) : PgSelect :=
  mkPgSelect (Some w) (config_orderBy query).

Definition orderBy (le : Object.t → Object.t → bool) (query : PgSelect) : PgSelect :=
  mkPgSelect (config_where query) (Some le).

Definition sort_rows (le : option (Object.t → Object.t → bool))
    (rows : list Object.t) : list Object.t :=
  match le with
  | Some le => merge_sort (λ a b, Is_true (le a b)) rows
  | None => rows
  end.

(** [await query] *)
Definition execute (query : PgSelect) : Query (list Object.t) :=
  match config_where query with
  | None => select (λ db, sort_rows (config_orderBy query) (objects db))
  | Some (Condition p) =>
      select (λ db, sort_rows (config_orderBy query) (filter (λ o, Is_true (p o)) (objects db)))
  | Some (RawString s) =>
      match raw_where s with
      | Some p =>
          select (λ db, sort_rows (config_orderBy query)
                          (filter (λ o, Is_true (p o)) (objects db)))
      | None => throw
      end
  end.

(** The operators of the query library used on [objects] *)
Definition eq_companyId (c : option Z) : Object.t → bool :=
  λ o, bool_decide (Some (Object.companyId o) = c).

Definition eq_id (i : Z) : Object.t → bool :=
  λ o, bool_decide (Object.id o = i).

Definition eq_type (t : string) : Object.t → bool :=
  λ o, bool_decide (Object.type o = t).

(** [ilike] on a nullable column is not true on [NULL]. *)
Definition search_filter (search : string) : Object.t → bool :=
  λ o, ilike (Object.name o) ("%" ++ search ++ "%")
       || ilike (Object.type o) ("%" ++ search ++ "%")
       || from_option (λ d, ilike d ("%" ++ search ++ "%")) false (Object.description o).

Definition asc {A} (le : A → A → bool) (col : Object.t → A) : Object.t → Object.t → bool :=
  λ a b, le (col a) (col b).

Definition desc {A} (le : A → A → bool) (col : Object.t → A) : Object.t → Object.t → bool :=
  λ a b, le (col b) (col a).

(** [`${value}`] *)
Definition to_string (v : JVal) : string :=
  match v with
  | JNull => "null"
  | JBool true => "true"
  | JBool false => "false"
  | JNum n => pretty n
  | JStr s => s
  end.

(** "Apply field specific filters if provided" *)
Definition field_filters (entries : list (string * JVal)) (query : PgSelect) : PgSelect :=
  foldl (λ query '(key, value),
           if truthy value then
             where_ (RawString ("fields->>'" ++ key ++ "' ILIKE '%"
                                ++ to_string value ++ "%'")) query
           else query)
        query entries.

(** "Apply sorting" *)
Definition sorting (sortBy sortOrder : option string) (query : PgSelect) : PgSelect :=
  if truthy_param sortBy then
    let orderFunc {A} (le : A → A → bool) (col : Object.t → A) :=
      if bool_decide (sortOrder = Some "desc") then desc le col else asc le col in
    if bool_decide (sortBy = Some "name") then orderBy (orderFunc text_le Object.name) query
    else if bool_decide (sortBy = Some "type") then orderBy (orderFunc text_le Object.type) query
    else if bool_decide (sortBy = Some "createdAt") then
      orderBy (orderFunc Z.leb Object.createdAt) query
    else orderBy (desc Z.leb Object.createdAt) query
  else orderBy (desc Z.leb Object.createdAt) query.

(** The query that [GET /api/objects] builds; [JSON.parse] may throw. *)
Definition objects_query (user : option ReqUser) (q : ObjectsQuery) : Query PgSelect :=
  let query := where_ (Condition (eq_companyId (companyId_of user))) select_from_objects in
  let query :=
    if truthy_param (q_search q) then
      where_ (Condition (search_filter (default "" (q_search q)))) query
    else query in
  let query :=
    if truthy_param (q_type q) && negb (bool_decide (q_type q = Some "_all")) then
      where_ (Condition (eq_type (default "" (q_type q)))) query
    else query in
  await query ←
    match q_fields q with
    | FieldsAbsent => ret query
    | FieldsThrow => throw
    | FieldsEntries entries => ret (field_filters entries query)
    end;
  ret (sorting (q_sortBy q) (q_sortOrder q) query).

(** [app.get("/api/objects", ...)] *)
Definition get_objects (user : option ReqUser) (req : Request)
    (q : ObjectsQuery) : Db → Reply * Db :=
  if negb (isAuthenticated user) then λ db, (send req 401 (Message "Unauthorized"), db)
  else
    try_catch
      (await query ← objects_query user q;
       await result ← execute query;
       ret (send req 200 (ManyObjects result)))
      (send req 500 (Message "Failed to fetch objects")).

(** [new Set(...)] spread back into an array: first occurrences, in
    order. *)
Fixpoint distinct (l : list string) : list string :=
  match l with
  | [] => []
  | x :: rest => x :: filter (λ y, y ≠ x) (distinct rest)
  end.

Definition suggestedTypes : list string :=
  ["Contact"; "Lead"; "Company"; "Project"; "Task"].

(** [app.get("/api/object-types", ...)] *)
Definition get_object_types (user : option ReqUser) (req : Request)
  : Db → Reply * Db :=
  if negb (isAuthenticated user) then λ db, (send req 401 (Message "Unauthorized"), db)
  else
    try_catch
      (await existingTypes ←
         select (λ db, distinct (Object.type <$>
                   filter (λ o, Is_true (eq_companyId (companyId_of user) o)) (objects db)));
       ret (send req 200 (ManyStrings (distinct (existingTypes ++ suggestedTypes)))))
      (send req 500 (Message "Failed to fetch object types")).

(** [(req.user?.roles || []).some(r => r.permissions.flag === true ||
    r.permissions.all === true)] *)
Definition has_permission (flag : string) (user : option ReqUser) : bool :=
  existsb (λ r, is_true (Role.permissions r) flag || is_true (Role.permissions r) "all")
          (from_option user_roles [] user).

(** [{ ...req.body, createdBy: req.user!.id, companyId: req.user!.companyId! }] *)
Definition stamped (body : ObjectBody) (u : ReqUser) : ObjectBody :=
  mkObjectBody (b_name body) (b_type body) (b_description body) (b_fields body)
               (Some (Some (User.id (row u))))
               (Some (Some (User.companyId (row u)))).

(** [app.post("/api/objects", ...)] *)
Definition post_objects (user : option ReqUser) (req : Request)
    (body : ObjectBody) : Db → Reply * Db :=
  if negb (isAuthenticated user) then λ db, (send req 401 (Message "Unauthorized"), db)
  else if negb (has_permission "create" user) then
    λ db, (send req 403 (Message "Forbidden"), db)
  else
    try_catch
      (await object ←
         match user with
         | Some u => insert_objects (now req) (stamped body u)
         | None => throw
         end;
       ret (send req 200 (OneObject (Some object))))
      (send req 500 (Message "Failed to create object")).

(** The re-fetch of [PUT] and [DELETE]:
    [where(and(eq(objects.id, id), eq(objects.companyId, companyId))).limit(1)];
    a [NaN] id and a number that is no [integer] make the statement
    fail. *)
Definition own_object (user : option ReqUser) (id : option Z)
  : Query (option Object.t) :=
  match id with
  | Some i =>
      if int4 i then
        select (λ db, head (filter (λ o, Is_true (eq_id i o && eq_companyId (companyId_of user) o))
                                   (objects db)))
      else throw
  | None => throw
  end.

(** [app.put("/api/objects/:id", ...)] *)
Definition put_objects (user : option ReqUser) (req : Request)
    (id : option Z) (body : ObjectBody) : Db → Reply * Db :=
  if negb (isAuthenticated user) then λ db, (send req 401 (Message "Unauthorized"), db)
  else if negb (has_permission "update" user) then
    λ db, (send req 403 (Message "Forbidden"), db)
  else
    try_catch
      (await object ← own_object user id;
       match object with
       | None => ret (send req 404 (Message "Object not found"))
       | Some _ =>
           await updated ← update_objects body (default 0 id);
           ret (send req 200 (OneObject (head updated)))
       end)
      (send req 500 (Message "Failed to update object")).

(** [app.delete("/api/objects/:id", ...)] *)
Definition delete_object (user : option ReqUser) (req : Request)
    (id : option Z) : Db → Reply * Db :=
  if negb (isAuthenticated user) then λ db, (send req 401 (Message "Unauthorized"), db)
  else if negb (has_permission "delete" user) then
    λ db, (send req 403 (Message "Forbidden"), db)
  else
    try_catch
      (await object ← own_object user id;
       match object with
       | None => ret (send req 404 (Message "Object not found"))
       | Some _ =>
           await _ ← delete_objects (default 0 id);
           ret (send req 200 (Message "Object deleted successfully"))
       end)
      (send req 500 (Message "Failed to delete object")).

(** ** The application

    The layers in registration order: [registerRoutes] first calls
    [setupAuth], which registers its routes and then the [/api/*]
    middleware, and only then adds the routes of [routes.ts].  Express
    hands a request to the first layer that matches and goes on to the
    next one only when that layer calls [next()]. *)

Inductive LayerName :=
  | auth_register | auth_login | auth_logout | auth_user
  | auth_roles | auth_users_roles | auth_users
  | auth_api_middleware
  | routes_users | routes_objects | routes_object_types
  | routes_post_objects | routes_put_objects | routes_delete_objects
  | routes_roles | routes_users_roles.

#[global] Instance LayerName_eq_dec : EqDecision LayerName.
Proof. solve_decision. Defined.

Definition setupAuth : list (LayerName * Layer) :=
  [ (auth_register, λ user req,
       match endpoint req with
       | POST_auth_register body => Some (register req body) | _ => None end);
    (auth_login, λ user req,
       match endpoint req with
       | POST_auth_login body => Some (login req body) | _ => None end);
    (auth_logout, λ user req,
       match endpoint req with
       | POST_auth_logout => Some (logout req) | _ => None end);
    (auth_user, λ user req,
       match endpoint req with
       | GET_user => Some (get_user user req) | _ => None end);
    (auth_roles, λ user req,
       match endpoint req with
       | GET_roles => Some (get_roles user req) | _ => None end);
    (auth_users_roles, λ user req,
       match endpoint req with
       | POST_users_roles userId roleId =>
           Some (post_users_roles user req userId roleId)
       | _ => None end);
    (auth_users, λ user req,
       match endpoint req with
       | GET_users => Some (get_users user req) | _ => None end);
    (auth_api_middleware, auth_middleware) ].

Definition registerRoutes : list (LayerName * Layer) :=
  setupAuth ++
  [ (routes_users, λ user req,
       match endpoint req with
       | GET_users =>
           Some (checkRole "admin" (company_users user req "Failed to fetch users")
                           user req)
       | _ => None end);
    (routes_objects, λ user req,
       match endpoint req with
       | GET_objects q => Some (get_objects user req q) | _ => None end);
    (routes_object_types, λ user req,
       match endpoint req with
       | GET_object_types => Some (get_object_types user req) | _ => None end);
    (routes_post_objects, λ user req,
       match endpoint req with
       | POST_objects body => Some (post_objects user req body) | _ => None end);
    (routes_put_objects, λ user req,
       match endpoint req with
       | PUT_objects id body => Some (put_objects user req id body) | _ => None end);
    (routes_delete_objects, λ user req,
       match endpoint req with
       | DELETE_objects id => Some (delete_object user req id) | _ => None end);
    (routes_roles, λ user req,
       match endpoint req with
       | GET_roles => Some (get_roles user req) | _ => None end);
    (routes_users_roles, λ user req,
       match endpoint req with
       | POST_users_roles userId roleId =>
           Some (checkRole "admin" (assign_role user req userId roleId) user req)
       | _ => None end) ].

Fixpoint dispatch (stack : list (LayerName * Layer)) (user : option ReqUser)
    (req : Request) : option (LayerName * (Db → Reply * Db)) :=
  match stack with
  | [] => None
  | (name, layer) :: rest =>
      match layer user req with
      | Some handler => Some (name, handler)
      | None => dispatch rest user req
      end
  end.

(** [passport.session()]: [req.user] from the session; a session whose
    user is gone is logged out. *)
Definition passport_session (req : Request) (db : Db) : option ReqUser * Request :=
  match session req ≫= λ id, deserializeUser id db with
  | Some u => (Some u, req)
  | None => (None, mkRequest None (endpoint req) (now req) (salt req))
  end.

(** One request against the application: the layer that answered and
    what it left, or [None] when no layer of the server answers. *)
Definition serve (req : Request) (db : Db) : option (LayerName * Served) :=
  let '(user, req) := passport_session req db in
  '(name, handler) ← dispatch registerRoutes user req;
  let '(reply, db') := handler db in
  Some (name, mkServed (reply_response reply) db' (reply_session reply)).

(** The database after a request. *)
Definition step (db : Db) (req : Request) : Db :=
  from_option (db_after ∘ snd) db (serve req db).

(** A database before the first request: no rows yet, the sequences
    anywhere. *)
Definition fresh (db : Db) : Prop :=
  companies db = [] ∧ roles db = [] ∧ userRoles db = [] ∧ users db = []
  ∧ objects db = [].

(** The databases the server can get to from a fresh one. *)
Definition reachable (db : Db) : Prop :=
  ∃ (db0 : Db) (reqs : list Request), fresh db0 ∧ db = foldl step db0 reqs.

End Server.

(** ** A platform to run the server on

    Enough of the platform to evaluate requests: [LIKE] patterns with
    [%] and [_] over ASCII letters, byte-wise text order, a driver that
    rejects a bare string as a condition, and a key derivation that
    only concatenates.  It closes the instances of the theorems, which
    themselves hold for every platform. *)

Definition lower (c : ascii) : ascii :=
  let n := nat_of_ascii c in
  if bool_decide (65 ≤ n ≤ 90)%nat then ascii_of_nat (n + 32) else c.

Fixpoint like (pattern : string) : string → bool :=
  match pattern with
  | EmptyString => λ text, bool_decide (text = EmptyString)
  | String p pattern' =>
      if bool_decide (p = "%"%char) then
        fix skip (text : string) : bool :=
          like pattern' text
          || match text with
             | EmptyString => false
             | String _ text' => skip text'
             end
      else λ text,
        match text with
        | EmptyString => false
        | String c text' =>
            (bool_decide (p = "_"%char) || bool_decide (lower p = lower c))
            && like pattern' text'
        end
  end.

Definition toy_platform : Platform := {|
  ilike text pattern := like pattern text;
  text_le := String.leb;
  raw_where _ := None;
  scrypt password salt := list_byte_of_string (password ++ salt);
  to_hex := string_of_list_byte;
  from_hex := list_byte_of_string
|}.

(** *** Worked requests

    Two registrations under the same company name, then one object
    each, on any platform. *)

Section Worked.
Context `{Platform}.

Definition alice_registers : Request :=
  mkRequest None
    (POST_auth_register (mkRegisterBody (Some "alice") (Some "x") (Some "Acme")))
    1 "a1".

Definition bob_registers : Request :=
  mkRequest None
    (POST_auth_register (mkRegisterBody (Some "bob") (Some "y") (Some "Acme")))
    2 "b2".

Definition contact (name : string) : ObjectBody :=
  mkObjectBody (Some (Some name)) (Some (Some "Contact")) None (Some (Some ∅))
               None None.

(** A registration without [companyName]: the [INSERT] into
    [companies] is rejected. *)
Definition nameless_registers : Request :=
  mkRequest None
    (POST_auth_register (mkRegisterBody (Some "carol") (Some "z") None))
    0 "c3".

(** After it and nothing else: no row, and company id 1 is gone. *)
Definition after_rejected_registration : Db := step empty_db nameless_registers.

(** After alice registered: user 1, company 1. *)
Definition one_tenant : Db := step empty_db alice_registers.

(** After bob registered too: user 2, company 2. *)
Definition two_tenants : Db := step one_tenant bob_registers.

(** alice created object 1, bob object 2. *)
Definition two_catalogs : Db :=
  step (step two_tenants (mkRequest (Some 1) (POST_objects (contact "Ann")) 3 ""))
       (mkRequest (Some 2) (POST_objects (contact "Ben")) 4 "").

(** [{ companyId: 2 }] *)
Definition to_company_2 : ObjectBody :=
  mkObjectBody None None None None None (Some (Some 2)).

(** [?type=Contact] *)
Definition contacts_only : ObjectsQuery :=
  mkObjectsQuery None (Some "Contact") None None FieldsAbsent.

(** [req.user] for alice's session. *)
Definition alice : ReqUser :=
  mkReqUser (User.mk 1 "alice" (to_hex (scrypt "x" "a1") ++ "." ++ "a1") 1)
            [Role.mk 1 "admin" adminPermissions].

End Worked.

(** A database with a role that has [all] but is not named "admin",
    held by user 1. *)
Definition root_role : Role.t := Role.mk 1 "root" {[ "all" := JBool true ]}.

Definition dave : User.t := User.mk 1 "dave" "00.11" 1.

Definition root_db : Db :=
  mkDb [Company.mk 1 "Initech"] [root_role] [UserRole.mk 1 1] [dave] []
       2 2 2 1.

(** [req.user] for dave's session. *)
Definition dave_with_roles : ReqUser := mkReqUser dave [root_role].

(** ** Vocabulary of the properties *)

(** The permission flag that guards a mutating object route. *)
Definition required_flag (e : Endpoint) : option string :=
  match e with
  | POST_objects _ => Some "create"
  | PUT_objects _ _ => Some "update"
  | DELETE_objects _ => Some "delete"
  | _ => None
  end.

(** Role listing, role assignment and the company's user listing. *)
Definition admin_only (e : Endpoint) : bool :=
  match e with
  | GET_roles | POST_users_roles _ _ | GET_users => true
  | _ => false
  end.

(** A role grants [flag] when its [flag] or its [all] is [true]. *)
Definition grants (flag : string) (r : Role.t) : Prop :=
  Role.permissions r !! flag = Some (JBool true)
  ∨ Role.permissions r !! "all" = Some (JBool true).

(** What the sequences and foreign keys guarantee about the rows: ids
    below their sequence, users in known companies, role assignments of
    known users, one role per role id. *)
Record wf (db : Db) : Prop := mk_wf {
  wf_companies : ∀ c, c ∈ companies db → Company.id c < companies_seq db;
  wf_users : ∀ u, u ∈ users db →
    User.id u < users_seq db ∧ User.companyId u < companies_seq db;
  wf_userRoles : ∀ ur, ur ∈ userRoles db → UserRole.userId ur < users_seq db;
  wf_roles : ∀ r, r ∈ roles db → Role.id r < roles_seq db;
  wf_role_ids : NoDup (Role.id <$> roles db)
}.

#[global] Instance wf_dec (db : Db) : Decision (wf db).
Proof.
  refine (cast_if (decide
    (Forall (λ c, Company.id c < companies_seq db) (companies db)
     ∧ Forall (λ u, User.id u < users_seq db
                    ∧ User.companyId u < companies_seq db) (users db)
     ∧ Forall (λ ur, UserRole.userId ur < users_seq db) (userRoles db)
     ∧ Forall (λ r, Role.id r < roles_seq db) (roles db)
     ∧ NoDup (Role.id <$> roles db)))).
  - destruct a as (Hc & Hu & Hur & Hr & Hn).
    split; [exact (proj1 (Forall_forall _ _) Hc)|exact (proj1 (Forall_forall _ _) Hu)
           |exact (proj1 (Forall_forall _ _) Hur)|exact (proj1 (Forall_forall _ _) Hr)
           |exact Hn].
  - intros [Hc Hu Hur Hr Hn]. apply n.
    split; [exact (proj2 (Forall_forall _ _) Hc)|].
    split; [exact (proj2 (Forall_forall _ _) Hu)|].
    split; [exact (proj2 (Forall_forall _ _) Hur)|].
    split; [exact (proj2 (Forall_forall _ _) Hr)|exact Hn].
Defined.

(** A statement, resp. a handler, that keeps [I] whether it returns or
    throws. *)
Definition preserves {A} (I : Db → Prop) (m : Query A) : Prop :=
  ∀ db a db', I db → m db = (a, db') → I db'.

Definition keeps {A} (I : Db → Prop) (handler : Db → A * Db) : Prop :=
  ∀ db a db', I db → handler db = (a, db') → I db'.

(** The tables that only registration and role assignment write. *)
Definition accounts (db : Db)
  : list Company.t * list Role.t * list UserRole.t * list User.t * (Z * Z * Z) :=
  (companies db, roles db, userRoles db, users db,
   (companies_seq db, roles_seq db, users_seq db)).

(** The role names a registration or login response reports for its
    user. *)
Definition granted (served : option (LayerName * Served)) : list string :=
  match served with
  | Some (_, s) =>
      match json (response s) with
      | MessageUser _ user => Role.name <$> default [] (j_roles user)
      | _ => []
      end
  | None => []
  end.

(** The users a response carries. *)
Definition users_in (body : Json) : list UserJson :=
  match body with
  | MessageUser _ user | OneUser user => [user]
  | ManyUsers users => users
  | _ => []
  end.

(** The objects a response carries. *)
Definition objects_in (body : Json) : list Object.t :=
  match body with
  | OneObject (Some o) => [o]
  | ManyObjects l => l
  | _ => []
  end.

(** ** Vocabulary of the further properties *)

(** The role registry as registration fills it: role names are unique
    and every role is "admin" or "user" with the permissions written in
    [register]. *)
Definition registry (rs : list Role.t) : Prop :=
  NoDup (Role.name <$> rs)
  ∧ ∀ r, r ∈ rs →
      (Role.name r = "admin" ∧ Role.permissions r = adminPermissions)
      ∨ (Role.name r = "user" ∧ Role.permissions r = userPermissions).

(** Every user holds a role named "admin". *)
Definition all_admins (db : Db) : Prop :=
  ∀ u, u ∈ users db →
    ∃ r, r ∈ roles db ∧ Role.name r = "admin"
         ∧ UserRole.mk (User.id u) (Role.id r) ∈ userRoles db.

(** Object ids come from the sequence and are not reused. *)
Record wf_objects (db : Db) : Prop := mk_wf_objects {
  wf_object_ids : ∀ o, o ∈ objects db → Object.id o < objects_seq db;
  wf_object_NoDup : NoDup (Object.id <$> objects db)
}.

#[global] Instance wf_objects_dec (db : Db) : Decision (wf_objects db).
Proof.
  refine (cast_if (decide
    (Forall (λ o, Object.id o < objects_seq db) (objects db)
     ∧ NoDup (Object.id <$> objects db)))).
  - destruct a as [Hids Hn].
    split; [exact (proj1 (Forall_forall _ _) Hids)|exact Hn].
  - intros [Hids Hn]. apply n.
    split; [exact (proj2 (Forall_forall _ _) Hids)|exact Hn].
Defined.

(** The layers of [routes.ts] that repeat a route of [auth.ts]. *)
Definition shadowed (name : LayerName) : bool :=
  match name with
  | routes_users | routes_roles | routes_users_roles => true
  | _ => false
  end.

(** The endpoints that only read. *)
Definition read_only (e : Endpoint) : bool :=
  match e with
  | POST_auth_login _ | POST_auth_logout | GET_user | GET_roles | GET_users
  | GET_objects _ | GET_object_types | Other_api => true
  | _ => false
  end.

(** The endpoints on [objects]. *)
Definition object_route (e : Endpoint) : bool :=
  match e with
  | GET_objects _ | GET_object_types | POST_objects _ | PUT_objects _ _
  | DELETE_objects _ => true
  | _ => false
  end.

(** The account tables of [d] hold every row those of [db] hold. *)
Definition grown (db d : Db) : Prop :=
  companies db ⊆ companies d ∧ roles db ⊆ roles d
  ∧ userRoles db ⊆ userRoles d ∧ users db ⊆ users d.

(** No ["."] in a text: true of hexadecimal output. *)
Fixpoint no_dot (s : string) : bool :=
  match s with
  | EmptyString => true
  | String c rest => negb (bool_decide (c = "."%char)) && no_dot rest
  end.

(** ** The client's permission flags

    [ObjectList] of [RelationshipManager.tsx] and [Dashboard.tsx]
    compute what to offer from the user that [GET /api/user] returned;
    [None] is [undefined]. *)

(** [(user as User)?.roles?.some(r => r.permissions.flag === true ||
    r.permissions.all === true)], falsy when a link is missing *)
Definition some_role_permits (flag : string) (user : option UserJson) : bool :=
  match user ≫= j_roles with
  | Some roles =>
      existsb (λ r, is_true (Role.permissions r) flag
                    || is_true (Role.permissions r) "all") roles
  | None => false
  end.

Definition canCreate : option UserJson → bool := some_role_permits "create".
Definition canUpdate : option UserJson → bool := some_role_permits "update".
Definition canDelete : option UserJson → bool := some_role_permits "delete".

(** [user?.roles?.some(r => r.name === "admin")] *)
Definition isAdmin (user : option UserJson) : bool :=
  match user ≫= j_roles with
  | Some roles => existsb (λ r, bool_decide (Role.name r = "admin")) roles
  | None => false
  end.

(** *** More worked requests *)

(** A request with alice's session, and one with none. *)
Definition as_alice (e : Endpoint) : Request := mkRequest (Some 1) e 5 "".

Definition anonymous (e : Endpoint) : Request := mkRequest None e 5 "".

(** The four requests that lead to [two_catalogs]. *)
Definition first_requests : list Request :=
  [alice_registers; bob_registers;
   mkRequest (Some 1) (POST_objects (contact "Ann")) 3 "";
   mkRequest (Some 2) (POST_objects (contact "Ben")) 4 ""].

(** Object 1 as alice created it. *)
Definition ann : Object.t :=
  Object.mk 1 "Ann" "Contact" None ∅ (Some 1) 1 3 3.


(** alice logging in with her password, and with another one. *)
Definition alice_logs_in : Request :=
  anonymous (POST_auth_login (mkLoginBody (Some "alice") (Some "x"))).

Definition alice_mistypes : Request :=
  anonymous (POST_auth_login (mkLoginBody (Some "alice") (Some "z"))).

(** ** Properties *)

Section Properties.
Context `{Platform}.

(** *** Dispatch *)

Lemma serve_unfold (req req' : Request) (db db' : Db) (user : option ReqUser)
    (name : LayerName) (handler : Db → Reply * Db) (reply : Reply) :
  passport_session req db = (user, req') →
  dispatch registerRoutes user req' = Some (name, handler) →
  handler db = (reply, db') →
  serve req db
  = Some (name, mkServed (reply_response reply) db' (reply_session reply)).
Proof.
  intros Hsession Hdispatch Hhandler. unfold serve.
  rewrite Hsession, Hdispatch. simpl. by rewrite Hhandler.
Qed.

Lemma passport_session_None (req : Request) (db : Db) :
  session req = None →
  passport_session req db
  = (None, mkRequest None (endpoint req) (now req) (salt req)).
Proof. intros Hs. unfold passport_session. by rewrite Hs. Qed.

Lemma passport_session_Some (req req' : Request) (db : Db) (u : ReqUser) :
  passport_session req db = (Some u, req') →
  req' = req ∧ ∃ id, session req = Some id ∧ deserializeUser id db = Some u.
Proof.
  unfold passport_session. destruct (session req) as [id|] eqn:Hs; simpl.
  - destruct (deserializeUser id db) as [u'|] eqn:Hu; intros [= <- <-]; eauto.
  - intros [= ].
Qed.

Lemma deserializeUser_roles (id : Z) (db : Db) (u : ReqUser) :
  deserializeUser id db = Some u →
  row u ∈ users db ∧ User.id (row u) = id
  ∧ user_roles u = getUserRoles id db.
Proof.
  unfold deserializeUser. intros Hu.
  destruct (head (filter (λ u0, User.id u0 = id) (users db))) as [r|] eqn:Hr;
    simplify_eq/=.
  apply head_Some_elem_of, list_elem_of_filter in Hr as [Hid Hin].
  by rewrite Hid.
Qed.

(** With a user, the middleware calls [next()]: the object routes of
    [routes.ts] are reached, while role listing, role assignment and
    user listing are still answered by their first registration, the
    one of [auth.ts]. *)
Lemma dispatch_authenticated (u : ReqUser) (req : Request) :
  dispatch registerRoutes (Some u) req
  = match endpoint req with
    | POST_auth_register body => Some (auth_register, register req body)
    | POST_auth_login body => Some (auth_login, login req body)
    | POST_auth_logout => Some (auth_logout, logout req)
    | GET_user => Some (auth_user, get_user (Some u) req)
    | GET_roles => Some (auth_roles, get_roles (Some u) req)
    | POST_users_roles userId roleId =>
        Some (auth_users_roles, post_users_roles (Some u) req userId roleId)
    | GET_users => Some (auth_users, get_users (Some u) req)
    | GET_objects q => Some (routes_objects, get_objects (Some u) req q)
    | GET_object_types => Some (routes_object_types, get_object_types (Some u) req)
    | POST_objects body => Some (routes_post_objects, post_objects (Some u) req body)
    | PUT_objects id body => Some (routes_put_objects, put_objects (Some u) req id body)
    | DELETE_objects id => Some (routes_delete_objects, delete_object (Some u) req id)
    | Other_api => None
    end.
Proof. destruct req as [s e n sa]. by destruct e. Qed.

(** Without a user, only the routes of [setupAuth] and its middleware
    are ever reached. *)
Lemma dispatch_anonymous (req : Request) :
  dispatch registerRoutes None req
  = match endpoint req with
    | POST_auth_register body => Some (auth_register, register req body)
    | POST_auth_login body => Some (auth_login, login req body)
    | POST_auth_logout => Some (auth_logout, logout req)
    | GET_user => Some (auth_user, get_user None req)
    | GET_roles => Some (auth_roles, get_roles None req)
    | POST_users_roles userId roleId =>
        Some (auth_users_roles, post_users_roles None req userId roleId)
    | GET_users => Some (auth_users, get_users None req)
    | _ => Some (auth_api_middleware,
                 λ db, (send req 401 (Message "Unauthorized"), db))
    end.
Proof. destruct req as [s e n sa]. by destruct e. Qed.

(** *** Authentication *)

(** C6, at the failing requests: without a session, the three admin
    routes of [auth.ts] are reached before the [/api/*] middleware and
    answer 403 "Forbidden", not 401; the database is left as it was. *)
Theorem C6_admin_routes_without_session (db : Db) (now : Z) (salt : string)
    (userId roleId : option Z) :
  let forbidden := mkServed (mkResponse 403 (Message "Forbidden")) db None in
  serve (mkRequest None GET_roles now salt) db = Some (auth_roles, forbidden)
  ∧ serve (mkRequest None GET_users now salt) db = Some (auth_users, forbidden)
  ∧ serve (mkRequest None (POST_users_roles userId roleId) now salt) db
    = Some (auth_users_roles, forbidden).
Proof. done. Qed.

(** The routes registered after the middleware do answer 401 without a
    session, and none of their handlers runs. *)
Lemma unauthenticated_behind_middleware (req : Request) (db : Db) :
  session req = None →
  match endpoint req with
  | GET_objects _ | GET_object_types | POST_objects _
  | PUT_objects _ _ | DELETE_objects _ | Other_api => True
  | _ => False
  end →
  serve req db
  = Some (auth_api_middleware,
          mkServed (mkResponse 401 (Message "Unauthorized")) db None).
Proof.
  intros Hs He. unfold serve.
  rewrite passport_session_None, dispatch_anonymous by done. simpl.
  by destruct (endpoint req).
Qed.

(** [GET /api/user] answers 401 itself, and logging out needs no
    session. *)
Lemma user_and_logout_without_session (db : Db) (now : Z) (salt : string) :
  serve (mkRequest None GET_user now salt) db
  = Some (auth_user, mkServed (mkResponse 401 (Message "Not authenticated")) db None)
  ∧ serve (mkRequest None POST_auth_logout now salt) db
    = Some (auth_logout,
            mkServed (mkResponse 200 (Message "Logged out successfully")) db None).
Proof. done. Qed.

(** *** Registration with a taken username *)

Lemma passport_session_request (req req' : Request) (db : Db) (user : option ReqUser) :
  passport_session req db = (user, req') →
  endpoint req' = endpoint req ∧ now req' = now req ∧ salt req' = salt req
  ∧ (is_Some user → req' = req).
Proof.
  unfold passport_session.
  destruct (session req ≫= λ id, deserializeUser id db);
    intros [= <- <-]; simpl; split_and!; try done.
Qed.

Lemma dispatch_register (user : option ReqUser) (req : Request) (body : RegisterBody) :
  endpoint req = POST_auth_register body →
  dispatch registerRoutes user req = Some (auth_register, register req body).
Proof. intros He. destruct req as [s e n sa]. simpl in He. by subst e. Qed.

Lemma head_filter_elem_of {A} (P : A → Prop) `{!∀ x, Decision (P x)}
    (l : list A) (x : A) :
  x ∈ l → P x → is_Some (head (filter P l)).
Proof.
  intros Hin HP. apply head_is_Some. intros Hnil.
  by apply (filter_nil_not_elem_of P l x).
Qed.

(** C10: registering a username that already has a row answers 400
    "Username already exists" and leaves every table as it was. *)
Theorem C10_register_taken_username (req : Request) (db : Db)
    (body : RegisterBody) (name : string) :
  endpoint req = POST_auth_register body →
  r_username body = Some name →
  name ∈ User.username <$> users db →
  ∃ session',
    serve req db
    = Some (auth_register,
            mkServed (mkResponse 400 (Message "Username already exists")) db session').
Proof.
  intros He Hname Hin. unfold serve.
  destruct (passport_session req db) as [user req'] eqn:Hsession.
  apply passport_session_request in Hsession as (He' & _ & _ & _).
  rewrite (dispatch_register user req' body) by congruence. simpl.
  apply list_elem_of_fmap in Hin as (u & -> & Hu).
  destruct (head_filter_elem_of (λ u0, Some (User.username u0) = r_username body)
              (users db) u Hu) as [u' Hu']; [by rewrite Hname|].
  unfold register, try_catch, bind, user_by_username, select.
  rewrite Hu'. simpl. eauto.
Qed.

(** *** The two gates *)

Lemma has_role_spec (roleName : string) (u : ReqUser) :
  has_role roleName (Some u) = true
  ↔ ∃ r, r ∈ user_roles u ∧ Role.name r = roleName.
Proof.
  unfold has_role. rewrite existsb_exists. split.
  - intros (r & Hin & Hr). exists r.
    by rewrite list_elem_of_In, <- (bool_decide_eq_true (Role.name r = roleName)).
  - intros (r & Hin & Hr). exists r.
    by rewrite <- list_elem_of_In, bool_decide_eq_true.
Qed.

Lemma has_permission_spec (flag : string) (u : ReqUser) :
  has_permission flag (Some u) = true
  ↔ ∃ r, r ∈ user_roles u ∧ grants flag r.
Proof.
  unfold has_permission, grants, is_true. simpl. rewrite existsb_exists.
  split; intros (r & Hin & Hr); exists r.
  - rewrite list_elem_of_In. split; [done|].
    apply orb_true_iff in Hr as [Hr|Hr]; apply bool_decide_eq_true in Hr; auto.
  - rewrite <- list_elem_of_In. split; [done|].
    apply orb_true_iff. destruct Hr as [Hr|Hr]; [left|right];
      by apply bool_decide_eq_true.
Qed.

(** What the three admin routes answer once [req.user] is known. *)
Lemma admin_route_reply (u : ReqUser) (req : Request) (db : Db) :
  admin_only (endpoint req) = true →
  ∃ name handler,
    dispatch registerRoutes (Some u) req = Some (name, handler)
    ∧ (has_role "admin" (Some u) = false →
       handler db = (send req 403 (Message "Forbidden"), db)).
Proof.
  intros Ha. rewrite dispatch_authenticated.
  destruct (endpoint req); try done; eexists _, _; (split; [done|]);
    intros Hrole; unfold get_roles, post_users_roles, get_users;
    by rewrite Hrole.
Qed.

(** C8: for an authenticated caller, role listing, role assignment and
    user listing answer 200 only to a caller with a role named "admin";
    a caller with no such role gets 403 "Forbidden" and nothing is
    written, whatever the permission flags of the caller's roles,
    [all] included. *)
Theorem C8_admin_gate_by_role_name (req req' : Request) (db : Db) (u : ReqUser) :
  passport_session req db = (Some u, req') →
  admin_only (endpoint req) = true →
  ∃ name s,
    serve req db = Some (name, s)
    ∧ (status (response s) = 200 →
       ∃ r, r ∈ user_roles u ∧ Role.name r = "admin")
    ∧ ((∀ r, r ∈ user_roles u → Role.name r ≠ "admin") →
       response s = mkResponse 403 (Message "Forbidden") ∧ db_after s = db).
Proof.
  intros Hsession Ha.
  pose proof (passport_session_Some _ _ _ _ Hsession) as [-> _].
  destruct (admin_route_reply u req db Ha) as (name & handler & Hd & Hforbidden).
  destruct (handler db) as [reply db'] eqn:Hh.
  exists name, (mkServed (reply_response reply) db' (reply_session reply)).
  split; [by apply (serve_unfold req req db db' (Some u) name handler)|].
  destruct (has_role "admin" (Some u)) eqn:Hrole.
  - apply has_role_spec in Hrole as (r & Hin & Hr). split; [eauto|].
    intros Hno. by destruct (Hno r Hin).
  - specialize (Hforbidden eq_refl). simplify_eq/=. split; [done|]. by intros _.
Qed.

(** Past its permission check, a mutating object route never answers
    403. *)
Lemma guarded_route_reply (u : ReqUser) (req : Request) (db : Db) (flag : string) :
  required_flag (endpoint req) = Some flag →
  ∃ name handler,
    dispatch registerRoutes (Some u) req = Some (name, handler)
    ∧ (has_permission flag (Some u) = false →
       handler db = (send req 403 (Message "Forbidden"), db))
    ∧ (has_permission flag (Some u) = true →
       status (reply_response (handler db).1) ≠ 403).
Proof.
  intros Hflag. rewrite dispatch_authenticated.
  destruct (endpoint req) as [| | | | | | | | |body|id body|id|]; simplify_eq/=;
    eexists _, _; (split; [done|]);
    unfold post_objects, put_objects, delete_object; simpl;
    (split; intros ->; [done|]); simpl;
    unfold try_catch, bind.
  - by destruct (insert_objects _ _ db) as [[o|] db'].
  - destruct (own_object (Some u) id db) as [[[o|]|] db']; try done.
    by destruct (update_objects body (default 0 id) db') as [[l|] db''].
  - by destruct (own_object (Some u) id db) as [[[o|]|] db'].
Qed.

(** C7: for an authenticated caller, the route guarded by [flag]
    (create for POST, update for PUT, delete for DELETE of an object)
    goes on past its permission check exactly when one of the caller's
    roles has [flag] or [all] set to [true]; otherwise it answers 403
    "Forbidden" and writes nothing. *)
Theorem C7_permission_is_or_over_roles (req req' : Request) (db : Db)
    (u : ReqUser) (flag : string) :
  passport_session req db = (Some u, req') →
  required_flag (endpoint req) = Some flag →
  ∃ name s,
    serve req db = Some (name, s)
    ∧ (status (response s) ≠ 403 ↔ ∃ r, r ∈ user_roles u ∧ grants flag r)
    ∧ (status (response s) = 403 →
       response s = mkResponse 403 (Message "Forbidden") ∧ db_after s = db).
Proof.
  intros Hsession Hflag.
  pose proof (passport_session_Some _ _ _ _ Hsession) as [-> _].
  destruct (guarded_route_reply u req db flag Hflag)
    as (name & handler & Hd & Hforbidden & Hproceeds).
  destruct (handler db) as [reply db'] eqn:Hh.
  exists name, (mkServed (reply_response reply) db' (reply_session reply)).
  split; [by apply (serve_unfold req req db db' (Some u) name handler)|].
  rewrite <- has_permission_spec. simpl in *.
  destruct (has_permission flag (Some u)) eqn:Hperm.
  - specialize (Hproceeds eq_refl). split; [done|]. by intros ?.
  - specialize (Hforbidden eq_refl). simplify_eq/=. split; [|done].
    split; [by intros []|done].
Qed.

(** *** Objects of other tenants *)

Lemma own_object_None (u : ReqUser) (id : Z) (db : Db) :
  int4 id = true →
  (∀ o, o ∈ objects db → Object.id o = id →
        Object.companyId o ≠ User.companyId (row u)) →
  own_object (Some u) (Some id) db = (Some None, db).
Proof.
  intros Hint Hnone. unfold own_object, select. rewrite Hint.
  destruct (head _) as [o|] eqn:Ho; [|done].
  apply head_Some_elem_of, list_elem_of_filter in Ho as [Hp Hin].
  apply Is_true_true, andb_true_iff in Hp as [Hid Hc].
  apply bool_decide_eq_true in Hid, Hc. simplify_eq/=.
  by destruct (Hnone o Hin eq_refl).
Qed.

Lemma own_object_reads (user : option ReqUser) (id : option Z) (db d : Db)
    (r : option (option Object.t)) :
  own_object user id db = (r, d) → d = db.
Proof.
  unfold own_object, select, throw. destruct id as [i|]; [destruct (int4 i)|];
    by intros [= _ <-].
Qed.

(** An [:id] that is not a number, or a number that is no [integer],
    never gets as far as "Object not found": the re-fetch throws and
    the handler answers 500, whatever the tables hold. *)
Lemma malformed_id_is_500 (req req' : Request) (db : Db) (u : ReqUser)
    (id : option Z) :
  passport_session req db = (Some u, req') →
  from_option int4 false id = false →
  (∀ body, endpoint req = PUT_objects id body →
     has_permission "update" (Some u) = true →
     serve req db
     = Some (routes_put_objects,
             mkServed (mkResponse 500 (Message "Failed to update object")) db
                      (session req)))
  ∧ (endpoint req = DELETE_objects id →
     has_permission "delete" (Some u) = true →
     serve req db
     = Some (routes_delete_objects,
             mkServed (mkResponse 500 (Message "Failed to delete object")) db
                      (session req))).
Proof.
  intros Hsession Hid.
  pose proof (passport_session_Some _ _ _ _ Hsession) as [-> _].
  pose proof (dispatch_authenticated u req) as Hd.
  assert (own_object (Some u) id db = (None, db)) as Hown.
  { unfold own_object. destruct id as [i|]; [|done]. simpl in Hid. by rewrite Hid. }
  split.
  - intros body He Hperm. rewrite He in Hd.
    apply (serve_unfold req req db db (Some u) _ _
             (send req 500 (Message "Failed to update object")) Hsession Hd).
    unfold put_objects, isAuthenticated.
    rewrite Hperm, bool_decide_true by eauto; cbn [negb].
    unfold try_catch, bind. by rewrite Hown.
  - intros He Hperm. rewrite He in Hd.
    apply (serve_unfold req req db db (Some u) _ _
             (send req 500 (Message "Failed to delete object")) Hsession Hd).
    unfold delete_object, isAuthenticated.
    rewrite Hperm, bool_decide_true by eauto; cbn [negb].
    unfold try_catch, bind. by rewrite Hown.
Qed.


(** *** Invariants of the statements *)

Lemma preserves_ret {A} (I : Db → Prop) (a : A) : preserves I (ret a).
Proof. by intros db a' db' HI [= _ <-]. Qed.

Lemma preserves_throw {A} (I : Db → Prop) : preserves I (@throw A).
Proof. by intros db a' db' HI [= _ <-]. Qed.

Lemma preserves_select {A} (I : Db → Prop) (f : Db → A) : preserves I (select f).
Proof. by intros db a' db' HI [= _ <-]. Qed.

Lemma preserves_bind {A B} (I : Db → Prop) (m : Query A) (k : A → Query B) :
  preserves I m → (∀ a, preserves I (k a)) → preserves I (bind m k).
Proof.
  intros Hm Hk db b db' HI. unfold bind.
  destruct (m db) as [[a|] db1] eqn:Hdb1.
  - intros Hb. eapply Hk; [|done]. by eapply Hm.
  - intros [= _ <-]. by eapply Hm.
Qed.

Lemma keeps_try_catch {A} (I : Db → Prop) (m : Query A) (handler : A) :
  preserves I m → keeps I (try_catch m handler).
Proof.
  intros Hm db a db' HI. unfold try_catch.
  destruct (m db) as [[a'|] db1] eqn:Hdb1; intros [= _ <-]; by eapply Hm.
Qed.

Lemma keeps_send {A} (I : Db → Prop) (a : A) : keeps I (λ db, (a, db)).
Proof. by intros db a' db' HI [= _ <-]. Qed.

Lemma keeps_if {A} (I : Db → Prop) (b : bool) (h1 h2 : Db → A * Db) :
  keeps I h1 → keeps I h2 → keeps I (if b then h1 else h2).
Proof. by destruct b. Qed.

(** The object statements leave the account tables alone. *)
Lemma accounts_set_objects (rows : list Object.t) (seq : Z) (db : Db) :
  accounts (set_objects rows seq db) = accounts db.
Proof. done. Qed.

Lemma accounts_nextval_objects (db : Db) :
  accounts (nextval_objects db) = accounts db.
Proof. done. Qed.

Lemma insert_objects_accounts (P : _ → Prop) (now : Z) (values : ObjectBody) :
  preserves (λ db, P (accounts db)) (insert_objects now values).
Proof.
  intros db a db' HI. unfold insert_objects.
  repeat case_match; by intros [= _ <-].
Qed.

Lemma update_objects_accounts (P : _ → Prop) (set : ObjectBody) (i : Z) :
  preserves (λ db, P (accounts db)) (update_objects set i).
Proof.
  intros db a db' HI. unfold update_objects.
  repeat case_match; by intros [= _ <-].
Qed.

Lemma delete_objects_accounts (P : _ → Prop) (i : Z) :
  preserves (λ db, P (accounts db)) (delete_objects i).
Proof. by intros db a db' HI [= _ <-]. Qed.

Lemma wf_accounts (db db' : Db) : accounts db' = accounts db → wf db → wf db'.
Proof.
  intros [= Hc Hr Hur Hu Hcs Hrs Hus] [? ? ? ? ?].
  split; by rewrite ?Hc, ?Hr, ?Hur, ?Hu, ?Hcs, ?Hrs, ?Hus.
Qed.

Lemma preserves_wf_accounts {A} (m : Query A) :
  (∀ P, preserves (λ db, P (accounts db)) m) → preserves wf m.
Proof.
  intros Hm db a db' Hwf Hdb'. eapply wf_accounts; [|done].
  by eapply (Hm (λ acc, acc = accounts db)).
Qed.

(** A value taken from a sequence and not used leaves a gap, which
    [wf] allows. *)
Lemma nextval_companies_wf (db : Db) : wf db → wf (nextval_companies db).
Proof.
  intros [Hc Hu Hur Hr Hn]. split; simpl; try done.
  - intros c Hin. specialize (Hc c Hin). lia.
  - intros u Hin. specialize (Hu u Hin). lia.
Qed.

Lemma nextval_roles_wf (db : Db) : wf db → wf (nextval_roles db).
Proof.
  intros [Hc Hu Hur Hr Hn]. split; simpl; try done.
  intros r Hin. specialize (Hr r Hin). lia.
Qed.

Lemma nextval_users_wf (db : Db) : wf db → wf (nextval_users db).
Proof.
  intros [Hc Hu Hur Hr Hn]. split; simpl; try done.
  - intros u Hin. specialize (Hu u Hin). lia.
  - intros ur Hin. specialize (Hur ur Hin). lia.
Qed.

(** The account statements keep [wf]. *)
Lemma insert_companies_wf (name : option string) : preserves wf (insert_companies name).
Proof.
  intros db a db' Hwf. unfold insert_companies.
  destruct name as [n|]; intros [= _ <-]; [|by apply nextval_companies_wf].
  destruct Hwf as [Hc Hu Hur Hr Hn]. split; simpl; try done.
  - intros c [Hin| ->%list_elem_of_singleton]%elem_of_app; simpl; [|lia].
    specialize (Hc c Hin). lia.
  - intros u Hin. specialize (Hu u Hin). lia.
Qed.

Lemma insert_roles_wf (name : string) (permissions : gmap string JVal) :
  preserves wf (insert_roles name permissions).
Proof.
  intros db a db' Hwf. unfold insert_roles.
  case_match; intros [= _ <-]; [by apply nextval_roles_wf|].
  destruct Hwf as [Hc Hu Hur Hr Hn]. split; simpl; try done.
  - intros r [Hin| ->%list_elem_of_singleton]%elem_of_app; simpl; [|lia].
    specialize (Hr r Hin). lia.
  - rewrite fmap_app. apply NoDup_app. split_and!; [done| |apply NoDup_singleton].
    intros i (r & -> & Hin)%list_elem_of_fmap Heq%list_elem_of_singleton.
    specialize (Hr r Hin). simpl in *. lia.
Qed.

Lemma ensureRoleExists_wf (name : string) (permissions : gmap string JVal) :
  preserves wf (ensureRoleExists name permissions).
Proof.
  apply preserves_bind; [apply preserves_select|].
  intros [r|]; [apply preserves_ret|].
  apply preserves_bind; [apply insert_roles_wf|intros; apply preserves_ret].
Qed.

Lemma crypto_hash_preserves (I : Db → Prop) (salt : string) (password : option string) :
  preserves I (crypto_hash salt password).
Proof. destruct password; [apply preserves_ret|apply preserves_throw]. Qed.

Lemma insert_users_wf (username : option string) (password : string) (companyId : Z) :
  preserves wf (insert_users username password companyId).
Proof.
  intros db a db' Hwf. unfold insert_users.
  destruct username as [n|]; [|intros [= _ <-]; by apply nextval_users_wf].
  destruct (bool_decide _ || _) eqn:Hcheck; intros [= _ <-];
    [by apply nextval_users_wf|].
  destruct Hwf as [Hc Hu Hur Hr Hn]. split; simpl; try done.
  - apply orb_false_iff in Hcheck as [_ Hfk].
    apply negb_false_iff, bool_decide_eq_true in Hfk.
    apply list_elem_of_fmap in Hfk as (c & -> & Hin). specialize (Hc c Hin).
    intros u [Hu'| ->%list_elem_of_singleton]%elem_of_app; simpl; [|lia].
    specialize (Hu u Hu'). lia.
  - intros ur Hin. specialize (Hur ur Hin). lia.
Qed.

Lemma insert_userRoles_wf (userId roleId : option Z) :
  preserves wf (insert_userRoles userId roleId).
Proof.
  intros db a db' [Hc Hu Hur Hr Hn]. unfold insert_userRoles.
  destruct userId as [u|], roleId as [r|]; try by intros [= _ <-].
  destruct (_ || _) eqn:Hcheck; intros [= _ <-]; split; simpl; try done.
  apply orb_false_iff in Hcheck as [[_ Hfk]%orb_false_iff _].
  apply negb_false_iff, bool_decide_eq_true in Hfk.
  apply list_elem_of_fmap in Hfk as (u' & -> & Hin). specialize (Hu u' Hin).
  intros ur [Hur'| ->%list_elem_of_singleton]%elem_of_app; simpl; [|lia].
  by apply Hur.
Qed.

Lemma insert_objects_wf (now : Z) (values : ObjectBody) :
  preserves wf (insert_objects now values).
Proof. apply preserves_wf_accounts. intros P. apply insert_objects_accounts. Qed.

Lemma update_objects_wf (set : ObjectBody) (i : Z) :
  preserves wf (update_objects set i).
Proof. apply preserves_wf_accounts. intros P. apply update_objects_accounts. Qed.

Lemma delete_objects_wf (i : Z) : preserves wf (delete_objects i).
Proof. apply preserves_wf_accounts. intros P. apply delete_objects_accounts. Qed.

Lemma timingSafeEqual_preserves (I : Db → Prop) (a b : list Byte.byte) :
  preserves I (timingSafeEqual a b).
Proof. unfold timingSafeEqual. case_match; [apply preserves_ret|apply preserves_throw]. Qed.

Lemma own_object_preserves (I : Db → Prop) (user : option ReqUser) (id : option Z) :
  preserves I (own_object user id).
Proof.
  destruct id as [i|]; [|apply preserves_throw]. unfold own_object.
  destruct (int4 i); [apply preserves_select|apply preserves_throw].
Qed.

Create HintDb preserve.

#[local] Hint Resolve preserves_ret preserves_throw preserves_select
  crypto_hash_preserves timingSafeEqual_preserves own_object_preserves
  insert_companies_wf insert_roles_wf ensureRoleExists_wf insert_users_wf
  insert_userRoles_wf insert_objects_wf update_objects_wf delete_objects_wf
  : preserve.

(** Walks through a handler: every statement on the way keeps the
    invariant. *)
Ltac preserve :=
  repeat first
    [ solve [eauto with preserve]
    | apply keeps_send
    | apply keeps_try_catch
    | apply keeps_if
    | apply preserves_bind; [|intros ?]
    | match goal with
      | |- preserves _ (match ?x with _ => _ end) => destruct x
      | |- keeps _ (match ?x with _ => _ end) => destruct x
      end ].

(** *** Every handler keeps [wf] *)

Lemma register_wf (req : Request) (body : RegisterBody) : keeps wf (register req body).
Proof. unfold register, user_by_username, register_rows, register_role. preserve. Qed.

Lemma login_keeps (I : Db → Prop) (req : Request) (body : LoginBody) :
  keeps I (login req body).
Proof. unfold login, verify, user_by_username, crypto_compare. preserve. Qed.

Lemma logout_keeps (I : Db → Prop) (req : Request) : keeps I (logout req).
Proof. unfold logout. preserve. Qed.

Lemma get_user_keeps (I : Db → Prop) (user : option ReqUser) (req : Request) :
  keeps I (get_user user req).
Proof. unfold get_user. intros db a db' HI. by destruct user; intros [= _ <-]. Qed.

Lemma get_roles_keeps (I : Db → Prop) (user : option ReqUser) (req : Request) :
  keeps I (get_roles user req).
Proof. unfold get_roles. preserve. Qed.

Lemma assign_role_wf (user : option ReqUser) (req : Request) (userId roleId : option Z) :
  keeps wf (assign_role user req userId roleId).
Proof.
  unfold assign_role. destruct userId as [i|]; [destruct (int4 i)|]; preserve.
Qed.

Lemma company_users_keeps (I : Db → Prop) (user : option ReqUser) (req : Request)
    (message : string) :
  keeps I (company_users user req message).
Proof. unfold company_users. preserve. Qed.

Lemma execute_preserves (I : Db → Prop) (query : PgSelect) : preserves I (execute query).
Proof. unfold execute. preserve. Qed.

Lemma get_objects_keeps (I : Db → Prop) (user : option ReqUser) (req : Request)
    (q : ObjectsQuery) :
  keeps I (get_objects user req q).
Proof.
  unfold get_objects, objects_query. pose proof (execute_preserves I). preserve.
Qed.

Lemma get_object_types_keeps (I : Db → Prop) (user : option ReqUser) (req : Request) :
  keeps I (get_object_types user req).
Proof. unfold get_object_types. preserve. Qed.

Lemma post_objects_wf (user : option ReqUser) (req : Request) (body : ObjectBody) :
  keeps wf (post_objects user req body).
Proof. unfold post_objects. preserve. Qed.

Lemma put_objects_wf (user : option ReqUser) (req : Request) (id : option Z)
    (body : ObjectBody) :
  keeps wf (put_objects user req id body).
Proof. unfold put_objects. preserve. Qed.

Lemma delete_object_wf (user : option ReqUser) (req : Request) (id : option Z) :
  keeps wf (delete_object user req id).
Proof. unfold delete_object. preserve. Qed.

Lemma dispatch_wf (user : option ReqUser) (req : Request) (name : LayerName)
    (handler : Db → Reply * Db) :
  dispatch registerRoutes user req = Some (name, handler) → keeps wf handler.
Proof.
  pose proof register_wf. pose proof assign_role_wf.
  pose proof post_objects_wf. pose proof put_objects_wf.
  pose proof delete_object_wf.
  pose proof (login_keeps wf). pose proof (logout_keeps wf).
  pose proof (get_user_keeps wf). pose proof (get_roles_keeps wf).
  pose proof (company_users_keeps wf). pose proof (get_objects_keeps wf).
  pose proof (get_object_types_keeps wf).
  destruct user as [u|]; [rewrite dispatch_authenticated|rewrite dispatch_anonymous];
    destruct (endpoint req); intros [= <- <-];
    unfold post_users_roles, get_users; preserve.
Qed.

Lemma serve_wf (req : Request) (db : Db) (name : LayerName) (s : Served) :
  wf db → serve req db = Some (name, s) → wf (db_after s).
Proof.
  intros Hwf. unfold serve.
  destruct (passport_session req db) as [user req'].
  destruct (dispatch registerRoutes user req') as [[name' handler]|] eqn:Hd; [|done].
  simpl. destruct (handler db) as [reply db'] eqn:Hh. intros [= _ <-]. simpl.
  by eapply (dispatch_wf _ _ _ _ Hd).
Qed.

Lemma step_wf (req : Request) (db : Db) : wf db → wf (step db req).
Proof.
  intros Hwf. unfold step.
  destruct (serve req db) as [[name s]|] eqn:Hs; [|done]. by eapply serve_wf.
Qed.

Lemma empty_db_wf : wf empty_db.
Proof. split; simpl; try by intros ? ?%elem_of_nil. apply NoDup_nil_2. Qed.

Lemma fresh_wf (db : Db) : fresh db → wf db.
Proof.
  intros (Hc & Hr & Hur & Hu & _).
  split; rewrite ?Hc, ?Hr, ?Hur, ?Hu; try by intros ? ?%elem_of_nil.
  apply NoDup_nil_2.
Qed.

(** Every database the server can get to satisfies [wf]. *)
Lemma reachable_wf (db : Db) : reachable db → wf db.
Proof.
  intros (db0 & reqs & Hwf%fresh_wf & ->). revert db0 Hwf.
  induction reqs as [|req reqs IH]; intros db0 Hwf; simpl; [done|].
  by apply IH, step_wf.
Qed.

(** *** Registration *)

Lemma ensureRoleExists_spec (name : string) (permissions : gmap string JVal)
    (db db' : Db) (r : Role.t) :
  ensureRoleExists name permissions db = (Some r, db') →
  Role.name r = name ∧ r ∈ roles db'
  ∧ companies db' = companies db ∧ users db' = users db
  ∧ userRoles db' = userRoles db
  ∧ companies_seq db' = companies_seq db ∧ users_seq db' = users_seq db
  ∧ (∀ r', r' ∈ roles db → r' ∈ roles db').
Proof.
  unfold ensureRoleExists, bind, select, insert_roles, ret.
  destruct (head _) as [existing|] eqn:Hhead; simpl.
  - intros [= <- <-].
    apply head_Some_elem_of, list_elem_of_filter in Hhead as [Hn Hin].
    by split_and!.
  - destruct (bool_decide _); [by intros [=]|]. intros [= <- <-]. simpl.
    split_and!; try done; [|intros r' Hr']; apply elem_of_app; auto.
    right. by apply list_elem_of_singleton.
Qed.

(** What is in hand at "Assign appropriate role" after the statements
    of a registration went through. *)
Lemma register_rows_spec (salt : string) (body : RegisterBody) (db db1 : Db)
    (reg : Registration) :
  wf db →
  register_rows salt body db = (Some reg, db1) →
  r_companyName body = Some (Company.name (company reg))
  ∧ Company.id (company reg) = companies_seq db
  ∧ companies db1 = (companies db ++ [company reg])%list
  ∧ users db1 = (users db ++ [newUser reg])%list
  ∧ User.id (newUser reg) = users_seq db
  ∧ companyUsers reg = [newUser reg]
  ∧ userRoles db1 = userRoles db
  ∧ Role.name (adminRole reg) = "admin" ∧ adminRole reg ∈ roles db1
  ∧ User.companyId (newUser reg) = Company.id (company reg)
  ∧ r_username body = Some (User.username (newUser reg)).
Proof.
  intros Hwf. unfold register_rows, bind.
  destruct (insert_companies _ db) as [[c|] d1] eqn:H1; [|done].
  destruct (ensureRoleExists "admin" _ d1) as [[ra|] d2] eqn:H2; [|done].
  destruct (ensureRoleExists "user" _ d2) as [[ru|] d3] eqn:H3; [|done].
  destruct (crypto_hash salt _ d3) as [[hashed|] d4] eqn:H4; [|done].
  destruct (insert_users _ hashed _ d4) as [[nu|] d5] eqn:H5; [|done].
  unfold select, ret. intros [= <- <-]. simpl.
  unfold insert_companies in H1. destruct (r_companyName body) as [cn|]; [|done].
  injection H1 as <- <-.
  apply ensureRoleExists_spec in H2 as (Hn2 & Hin2 & Hc2 & Hu2 & Hur2 & Hcs2 & Hus2 & _).
  apply ensureRoleExists_spec in H3 as (_ & _ & Hc3 & Hu3 & Hur3 & Hcs3 & Hus3 & Hsub3).
  assert (d4 = d3) as ->
    by (unfold crypto_hash, ret, throw in H4; destruct (r_password body);
        by simplify_eq).
  unfold insert_users in H5. destruct (r_username body) as [un|]; [|done].
  case_match; [done|]. injection H5 as <- <-. simpl in *.
  rewrite Hc3, Hc2, Hu3, Hu2, Hur3, Hur2, Hus3, Hus2. simpl.
  split_and!; try done; [|by apply Hsub3].
  rewrite filter_app, filter_cons_True, filter_nil by done.
  assert (filter (λ u, User.companyId u = companies_seq db) (users db) = []) as ->; [|done].
  destruct (filter _ (users db)) as [|u l] eqn:Hf; [done|].
  assert (u ∈ filter (λ u, User.companyId u = companies_seq db) (users db))
    as [Hid Hin]%list_elem_of_filter by (rewrite Hf; left).
  apply (wf_users _ Hwf) in Hin. lia.
Qed.

Lemma filter_key_NoDup {A} (key : A → Z) (l : list A) (x : A) :
  NoDup (key <$> l) → x ∈ l → filter (λ y, key y = key x) l = [x].
Proof.
  induction l as [|y l IH]; [by intros _ ?%elem_of_nil|].
  rewrite fmap_cons, NoDup_cons, elem_of_cons. intros [Hy Hnd] [->|Hin].
  - rewrite filter_cons_True by done. f_equal.
    destruct (filter _ l) as [|z l'] eqn:Hf; [done|].
    assert (z ∈ filter (λ y0, key y0 = key y) l) as [Hz Hzl]%list_elem_of_filter
      by (rewrite Hf; left).
    destruct Hy. rewrite <- Hz. by apply list_elem_of_fmap_2.
  - rewrite filter_cons_False; [by apply IH|].
    intros Hk. destruct Hy. rewrite Hk. by apply list_elem_of_fmap_2.
Qed.

(** A registration that went through granted the admin role, and only
    it. *)
Lemma register_role_spec (reg : Registration) (db db1 db2 : Db) (u : UserJson) :
  wf db → wf db1 →
  userRoles db1 = userRoles db →
  User.id (newUser reg) = users_seq db →
  companyUsers reg = [newUser reg] →
  adminRole reg ∈ roles db1 →
  register_role reg db1 = (Some u, db2) →
  u = with_roles (newUser reg) [adminRole reg]
  ∧ getUserRoles (User.id (newUser reg)) db2 = [adminRole reg]
  ∧ companies db2 = companies db1 ∧ users db2 = users db1.
Proof.
  intros Hwf Hwf1 Hur Hid Hcu Hadmin.
  assert (roleToAssign reg = adminRole reg) as Hrole
    by (unfold roleToAssign; by rewrite Hcu).
  unfold register_role, bind. rewrite Hrole.
  destruct (insert_userRoles _ _ db1) as [[[]|] d] eqn:Hins; [|done].
  unfold select, ret. intros [= <- <-].
  unfold insert_userRoles in Hins. case_match; [done|].
  injection Hins as <-.
  assert (getUserRoles (User.id (newUser reg))
            (mkDb (companies db1) (roles db1)
               (userRoles db1 ++ [UserRole.mk (User.id (newUser reg)) (Role.id (adminRole reg))])
               (users db1) (objects db1) (companies_seq db1) (roles_seq db1)
               (users_seq db1) (objects_seq db1))
          = [adminRole reg]) as Hroles; [|by rewrite Hroles].
  unfold getUserRoles. simpl.
  rewrite filter_app, filter_cons_True, filter_nil by done.
  assert (filter (λ ur, UserRole.userId ur = User.id (newUser reg)) (userRoles db1) = [])
    as ->.
  { destruct (filter _ (userRoles db1)) as [|ur l] eqn:Hf; [done|].
    assert (ur ∈ filter (λ ur, UserRole.userId ur = User.id (newUser reg)) (userRoles db1))
      as [Hu Hin]%list_elem_of_filter by (rewrite Hf; left).
    rewrite Hur in Hin. apply (wf_userRoles _ Hwf) in Hin. lia. }
  simpl. rewrite app_nil_r.
  apply (filter_key_NoDup Role.id); [by apply wf_role_ids|done].
Qed.

(** The whole of a registration that answered 200. *)
Lemma register_spec (req : Request) (body : RegisterBody) (db db' : Db) (reply : Reply) :
  wf db →
  register req body db = (reply, db') →
  status (reply_response reply) = 200 →
  ∃ reg db1,
    register_rows (salt req) body db = (Some reg, db1)
    ∧ r_companyName body = Some (Company.name (company reg))
    ∧ Company.id (company reg) = companies_seq db
    ∧ companies db' = (companies db ++ [company reg])%list
    ∧ users db' = (users db ++ [newUser reg])%list
    ∧ companyUsers reg = [newUser reg]
    ∧ Role.name (adminRole reg) = "admin"
    ∧ getUserRoles (User.id (newUser reg)) db' = [adminRole reg]
    ∧ reply = login_send (User.id (newUser reg))
                (MessageUser "Registration successful"
                   (omit_password (with_roles (newUser reg) [adminRole reg]))).
Proof.
  intros Hwf. unfold register, try_catch, bind at 1, user_by_username, select.
  destruct (head _) as [existing|]; [by intros [= <- <-]|].
  unfold bind at 1.
  destruct (register_rows (salt req) body db) as [[reg|] db1] eqn:Hrows;
    [|by intros [= <- <-]].
  assert (preserves wf (register_rows (salt req) body)) as Hp
    by (unfold register_rows; preserve).
  pose proof (Hp _ _ _ Hwf Hrows) as Hwf1.
  destruct (register_rows_spec _ _ _ _ _ Hwf Hrows)
    as (Hname & Hcid & Hcs & Hus & Huid & Hcu & Hur & Hadmin & Hin & _).
  unfold bind.
  destruct (register_role reg db1) as [[u|] db2] eqn:Hrole; [|by intros [= <- <-]].
  destruct (register_role_spec reg db db1 db2 u) as (-> & Hroles & Hc2 & Hu2); try done.
  unfold ret. intros [= <- <-] _. exists reg, db1.
  rewrite Hc2, Hu2. by split_and!.
Qed.

Lemma serve_register (req : Request) (body : RegisterBody) (db : Db)
    (name : LayerName) (s : Served) :
  endpoint req = POST_auth_register body →
  serve req db = Some (name, s) →
  ∃ req' reply,
    salt req' = salt req
    ∧ register req' body db = (reply, db_after s)
    ∧ response s = reply_response reply.
Proof.
  intros He. unfold serve.
  destruct (passport_session req db) as [user req'] eqn:Hsession.
  apply passport_session_request in Hsession as (He' & _ & Hsalt & _).
  rewrite (dispatch_register user req' body) by congruence. simpl.
  destruct (register req' body db) as [reply db'] eqn:Hr. intros [= _ <-].
  by exists req', reply.
Qed.

(** C9: a registration that answers 200 has inserted a company row of
    its own, with the supplied name and an id no earlier company has,
    whatever companies exist already; when it assigns the role, the
    users of that company are the new user alone.  Two registrations
    under the same company name leave two company rows with different
    ids.  What is asked of the database is what its sequences and
    foreign keys guarantee, [wf]. *)
Theorem C9_registration_inserts_new_company (req1 req2 : Request)
    (body1 body2 : RegisterBody) (db : Db) (s1 s2 : Served) :
  wf db →
  endpoint req1 = POST_auth_register body1 →
  serve req1 db = Some (auth_register, s1) →
  status (response s1) = 200 →
  (∃ reg db1,
     register_rows (salt req1) body1 db = (Some reg, db1)
     ∧ r_companyName body1 = Some (Company.name (company reg))
     ∧ (Company.id (company reg) ∉ (Company.id <$> companies db))
     ∧ companies (db_after s1) = (companies db ++ [company reg])%list
     ∧ companyUsers reg = [newUser reg])
  ∧ (endpoint req2 = POST_auth_register body2 →
     r_companyName body2 = r_companyName body1 →
     serve req2 (db_after s1) = Some (auth_register, s2) →
     status (response s2) = 200 →
     ∃ c1 c2,
       companies (db_after s2) = (companies db ++ [c1; c2])%list
       ∧ r_companyName body1 = Some (Company.name c1)
       ∧ Company.name c2 = Company.name c1
       ∧ Company.id c2 ≠ Company.id c1).
Proof.
  intros Hreach He1 Hs1 H200.
  pose proof (serve_wf _ _ _ _ Hreach Hs1) as Hwf1.
  destruct (serve_register _ _ _ _ _ He1 Hs1) as (req1' & reply1 & Hsalt1 & Hr1 & Hresp1).
  rewrite Hresp1 in H200.
  destruct (register_spec _ _ _ _ _ Hreach Hr1 H200)
    as (reg & db1 & Hrows & Hname & Hid & Hcs & _ & Hcu & _).
  assert (Company.id (company reg) ∉ (Company.id <$> companies db)) as Hfresh.
  { intros (c & Hc & Hin)%list_elem_of_fmap.
    apply (wf_companies _ Hreach) in Hin. lia. }
  split.
  - exists reg, db1. rewrite <- Hsalt1. by split_and!.
  - intros He2 Hsame Hs2 H200'.
    destruct (serve_register _ _ _ _ _ He2 Hs2) as (req2' & reply2 & _ & Hr2 & Hresp2).
    rewrite Hresp2 in H200'.
    destruct (register_spec _ _ _ _ _ Hwf1 Hr2 H200')
      as (reg2 & db2 & _ & Hname2 & Hid2 & Hcs2 & _).
    exists (company reg), (company reg2).
    rewrite Hcs2, Hcs, <- (assoc_L (++)). split_and!; try done.
    + congruence.
    + assert (company reg ∈ companies (db_after s1)) as Hin
        by (rewrite Hcs, elem_of_app, list_elem_of_singleton; auto).
      apply (wf_companies _ Hwf1) in Hin. lia.
Qed.

(** Every registration that answers 200 is under a company that had
    no row and no user before, and grants the new user the role named
    "admin" and no other, in the response and in [user_roles]: the
    "user" branch of [roleToAssign] is never taken. *)
Lemma registration_grants_admin (req : Request) (body : RegisterBody)
    (db : Db) (s : Served) :
  wf db →
  endpoint req = POST_auth_register body →
  serve req db = Some (auth_register, s) →
  status (response s) = 200 →
  ∃ user role,
    json (response s) = MessageUser "Registration successful" user
    ∧ r_username body = Some (j_username user)
    ∧ j_roles user = Some [role]
    ∧ Role.name role = "admin"
    ∧ getUserRoles (j_id user) (db_after s) = [role]
    ∧ (j_companyId user ∉ (Company.id <$> companies db))
    ∧ (∀ u, u ∈ users db → User.companyId u ≠ j_companyId user).
Proof.
  intros Hwf He Hs H200.
  destruct (serve_register _ _ _ _ _ He Hs) as (req' & reply & _ & Hr & Hresp).
  rewrite Hresp in H200 |- *.
  destruct (register_spec _ _ _ _ _ Hwf Hr H200)
    as (reg & db1 & Hrows & _ & _ & _ & _ & _ & Hadmin & Hroles & ->).
  destruct (register_rows_spec _ _ _ _ _ Hwf Hrows)
    as (_ & Hcid & _ & _ & _ & _ & _ & _ & _ & Hc & Hn).
  eexists _, (adminRole reg). simpl. split_and!; try done; simpl.
  - rewrite Hc, Hcid. intros (c & Hid & Hin)%list_elem_of_fmap.
    apply (wf_companies _ Hwf) in Hin. lia.
  - intros u Hin. rewrite Hc, Hcid. apply (wf_users _ Hwf) in Hin. lia.
Qed.

(** *** What the object routes do with [companyId] *)

(** [POST /api/objects] stores the caller's company and id, whatever
    the body says. *)
Lemma post_objects_stamps_company (u : ReqUser) (req : Request) (body : ObjectBody)
    (db db' : Db) (reply : Reply) :
  post_objects (Some u) req body db = (reply, db') →
  status (reply_response reply) = 200 →
  ∃ o,
    json (reply_response reply) = OneObject (Some o)
    ∧ Object.companyId o = User.companyId (row u)
    ∧ Object.createdBy o = Some (User.id (row u))
    ∧ objects db' = (objects db ++ [o])%list.
Proof.
  unfold post_objects. simpl. destruct (has_permission "create" (Some u)); simpl;
    [|by intros [= <- <-]].
  unfold try_catch, bind.
  destruct (insert_objects (now req) (stamped body u) db) as [[o|] d] eqn:Hins;
    unfold ret; intros [= <- <-]; [|done].
  intros _. exists o. unfold insert_objects in Hins. simpl in Hins.
  repeat case_match; simplify_eq/=. by split_and!.
Qed.

Lemma elem_of_sort_rows (le : option (Object.t → Object.t → bool))
    (rows : list Object.t) (o : Object.t) :
  o ∈ sort_rows le rows ↔ o ∈ rows.
Proof.
  destruct le as [le|]; [|done]. simpl. by rewrite merge_sort_Permutation.
Qed.

Lemma sorting_where (sortBy sortOrder : option string) (query : PgSelect) :
  config_where (sorting sortBy sortOrder query) = config_where query.
Proof. unfold sorting. by repeat case_match. Qed.

(** With no [search], [type] or [fields] parameter the first [where]
    stands, and the listing is the caller's company's. *)
Lemma get_objects_unfiltered_is_scoped (u : ReqUser) (req : Request)
    (q : ObjectsQuery) (db db' : Db) (reply : Reply) :
  truthy_param (q_search q) = false →
  truthy_param (q_type q) = false ∨ q_type q = Some "_all" →
  q_fields q = FieldsAbsent →
  get_objects (Some u) req q db = (reply, db') →
  ∀ o, o ∈ objects_in (json (reply_response reply)) →
       Object.companyId o = User.companyId (row u).
Proof.
  intros Hsearch Htype Hfields. unfold get_objects, objects_query. simpl.
  rewrite Hsearch, Hfields.
  assert (truthy_param (q_type q) && negb (bool_decide (q_type q = Some "_all"))
          = false) as ->.
  { destruct Htype as [->| ->]; [done|]. by rewrite andb_comm. }
  unfold try_catch, bind, ret, execute. rewrite sorting_where. simpl.
  intros [= <- <-] o. simpl.
  rewrite elem_of_sort_rows, list_elem_of_filter.
  intros [Hc%Is_true_true%bool_decide_eq_true _]. by simplify_eq.
Qed.

(** With a [type] parameter the listing is every object of that type,
    of whatever company. *)
Lemma get_objects_type_filter_unscoped (u : ReqUser) (req : Request)
    (q : ObjectsQuery) (db : Db) (t : string) :
  q_type q = Some t → t ≠ "" → t ≠ "_all" →
  q_fields q = FieldsAbsent →
  ∃ l,
    get_objects (Some u) req q db = (send req 200 (ManyObjects l), db)
    ∧ ∀ o, o ∈ l ↔ o ∈ objects db ∧ Object.type o = t.
Proof.
  intros Htype Hne Hall Hfields. unfold get_objects, objects_query. simpl.
  rewrite Htype, Hfields. simpl.
  rewrite (bool_decide_false (t = "")), (bool_decide_false (Some t = Some "_all"))
    by congruence.
  simpl. unfold try_catch, bind, ret, execute. rewrite sorting_where.
  destruct (truthy_param (q_search q)); simpl; eexists; (split; [done|]);
    intros o; rewrite elem_of_sort_rows, list_elem_of_filter;
    unfold eq_type; rewrite Is_true_true, bool_decide_eq_true; tauto.
Qed.

Lemma update_rows_returned (db : Db) (set : ObjectBody) (i c : Z)
    (rows rows' returned : list Object.t) :
  b_companyId set = Some (Some c) →
  update_rows db set i rows = Some (rows', returned) →
  ∀ o, o ∈ returned → Object.companyId o = c ∧ o ∈ rows'.
Proof.
  intros Hc. revert rows' returned.
  induction rows as [|r rows IH]; intros rows' returned; simpl.
  - by intros [= <- <-] o ?%elem_of_nil.
  - destruct (update_rows db set i rows) as [[rest ret']|]; [|done]. simpl.
    case_bool_decide.
    + destruct (patch_row set r) as [r'|] eqn:Hpatch; [|done]. simpl.
      destruct (row_ok db r'); [|done]. intros [= <- <-] o.
      intros [->|Hin]%elem_of_cons.
      * split; [|by left]. unfold patch_row in Hpatch. rewrite Hc in Hpatch.
        repeat case_match; by simplify_eq/=.
      * destruct (IH rest ret' eq_refl o Hin). split; [done|by right].
    + intros [= <- <-] o Hin.
      destruct (IH rest ret' eq_refl o Hin). split; [done|by right].
Qed.

(** [PUT /api/objects/:id] stores the [companyId] of the body: when it
    answers 200, the object it returns and leaves in the table is in
    the company the body names. *)
Lemma put_objects_trusts_body (u : ReqUser) (req : Request) (id : option Z)
    (body : ObjectBody) (c : Z) (db db' : Db) (reply : Reply) :
  b_companyId body = Some (Some c) →
  put_objects (Some u) req id body db = (reply, db') →
  status (reply_response reply) = 200 →
  ∀ o, o ∈ objects_in (json (reply_response reply)) →
       Object.companyId o = c ∧ o ∈ objects db'.
Proof.
  intros Hc. unfold put_objects. simpl.
  destruct (has_permission "update" (Some u)); simpl; [|by intros [= <- <-]].
  unfold try_catch, bind.
  destruct (own_object (Some u) id db) as [[[own|]|] d] eqn:Hown;
    [|by intros [= <- <-]..].
  assert (d = db) as -> by (by eapply own_object_reads).
  unfold update_objects. destruct (no_values body); [by intros [= <- <-]|].
  destruct (update_rows db body (default 0 id) (objects db))
    as [[rows returned]|] eqn:Hrows; [|by intros [= <- <-]].
  unfold ret. intros [= <- <-] _ o. simpl.
  destruct returned as [|o' returned]; simpl; [by intros ?%elem_of_nil|].
  intros ->%list_elem_of_singleton.
  apply (update_rows_returned _ _ _ _ _ _ _ Hc Hrows). by left.
Qed.

(** *** Passwords in responses *)

(** [GET /api/users] answers an admin with the rows of the company,
    [password] column included. *)
Lemma get_users_with_passwords (u : ReqUser) (req : Request) (db : Db) :
  has_role "admin" (Some u) = true →
  get_users (Some u) req db
  = (send req 200
       (ManyUsers ((λ r, with_roles r (getUserRoles (User.id r) db))
                   <$> filter (λ r, User.companyId r = User.companyId (row u))
                              (users db))),
     db).
Proof.
  intros Hadmin. unfold get_users, company_users. rewrite Hadmin. simpl.
  unfold try_catch, bind, select, ret. do 4 f_equal.
  apply list_filter_iff. intros r. split; [by intros [= ->]|by intros ->].
Qed.

(** The other three routes that answer with a user take the
    [password] key out. *)
Lemma password_omitted (req : Request) (db db' : Db) (reply : Reply)
    (user : option ReqUser) :
  (∃ body, register req body db = (reply, db'))
  ∨ (∃ body, login req body db = (reply, db'))
  ∨ get_user user req db = (reply, db') →
  ∀ j, j ∈ users_in (json (reply_response reply)) → j_password j = None.
Proof.
  intros [[body Hr]|[[body Hl]|Hu]]; revert Hr || revert Hl || revert Hu.
  - unfold register, try_catch, bind, user_by_username, select, ret.
    destruct (head _); [by intros [= <- <-] j ?%elem_of_nil|].
    destruct (register_rows _ _ _) as [[reg|] d1];
      [|by intros [= <- <-] j ?%elem_of_nil].
    destruct (register_role _ _) as [[uj|] d2];
      [|by intros [= <- <-] j ?%elem_of_nil].
    by intros [= <- <-] j ->%list_elem_of_singleton.
  - unfold login. destruct (_ && _); [|by intros [= <- <-] j ?%elem_of_nil].
    unfold try_catch, bind, ret.
    destruct (verify _ _ db) as [[[uj|]|] d1];
      try by intros [= <- <-] j ?%elem_of_nil.
    by intros [= <- <-] j ->%list_elem_of_singleton.
  - unfold get_user. destruct user; intros [= <- <-] j; simpl;
      [by intros ->%list_elem_of_singleton|by intros ?%elem_of_nil].
Qed.

(** *** Ids of rejected rows *)

(** A rejected [INSERT] has used up its id.  After a registration
    without [companyName], which answers 500, no row is stored and the
    next company gets id 2; after a [POST /api/objects] without [name],
    which answers 500, the next object gets id 2. *)
Lemma rejected_insert_takes_its_id :
  after_rejected_registration = mkDb [] [] [] [] [] 2 1 1 1
  ∧ Company.id <$> companies (step after_rejected_registration alice_registers) = [2]
  ∧ (∃ s,
       serve (mkRequest (Some 1) (POST_objects to_company_2) 3 "") two_tenants
       = Some (routes_post_objects, s)
       ∧ response s = mkResponse 500 (Message "Failed to create object")
       ∧ objects (db_after s) = [] ∧ objects_seq (db_after s) = 2
       ∧ Object.id <$> objects (step (db_after s)
                                  (mkRequest (Some 1) (POST_objects (contact "Ann")) 4 ""))
         = [2]).
Proof. split; [done|]. split; [done|]. eexists. split; [by vm_compute|done]. Qed.

(** *** The requests at which the server departs from its description *)

(** C1, at the failing request: alice, of company 1 and allowed to
    update, sends [PUT /api/objects/1] with body [{ companyId: 2 }].
    [POST] overwrote [companyId] from the session; [PUT] hands the
    body to [set] as it is, and object 1 now belongs to company 2. *)
Theorem C1_put_moves_object_to_another_company :
  Object.companyId <$> objects two_catalogs = [1; 2]
  ∧ ∃ s,
      serve (mkRequest (Some 1) (PUT_objects (Some 1) to_company_2) 5 "") two_catalogs
      = Some (routes_put_objects, s)
      ∧ status (response s) = 200
      ∧ Object.companyId <$> objects (db_after s) = [2; 2].
Proof. split; [done|]. eexists. split; [by vm_compute|done]. Qed.

(** C2, at the failing request: alice, of company 1, asks for
    [GET /api/objects?type=Contact].  The [where] of the type filter
    takes the place of the company's, and the listing has bob's object
    2 of company 2 in it. *)
Theorem C2_type_filter_lists_other_companies :
  ∃ s,
    serve (mkRequest (Some 1) (GET_objects contacts_only) 5 "") two_catalogs
    = Some (routes_objects, s)
    ∧ status (response s) = 200
    ∧ (λ o, (Object.id o, Object.companyId o)) <$> objects_in (json (response s))
      = [(2, 2); (1, 1)].
Proof. eexists. split; [by vm_compute|done]. Qed.

(** C3, at the failing request: alice, an admin, asks for
    [GET /api/users]; the user in the response has its [password]
    key, with the stored hash. *)
Theorem C3_user_listing_carries_password :
  ∃ s,
    serve (mkRequest (Some 1) GET_users 5 "") one_tenant = Some (auth_users, s)
    ∧ status (response s) = 200
    ∧ j_password <$> users_in (json (response s))
      = Some ∘ User.password <$> users one_tenant
    ∧ length (users one_tenant) = 1%nat.
Proof. eexists. split; [by vm_compute|done]. Qed.

(** C5, at the failing requests: alice registers for "Acme", then bob
    registers for "Acme".  The handler prepares the role "user" and
    counts the users of the company to tell the first from the later
    ones, but it has just inserted the company: bob is the first user
    of a second company named "Acme" and is granted "admin", not
    "user".  The role "user" is there, and nobody holds it. *)
Theorem C5_second_registrant_is_admin :
  granted (serve alice_registers empty_db) = ["admin"]
  ∧ ∃ s,
      serve bob_registers one_tenant = Some (auth_register, s)
      ∧ status (response s) = 200
      ∧ granted (Some (auth_register, s)) = ["admin"]
      ∧ (λ c, (Company.id c, Company.name c)) <$> companies (db_after s)
        = [(1, "Acme"); (2, "Acme")]
      ∧ (λ u, (User.username u, User.companyId u)) <$> users (db_after s)
        = [("alice", 1); ("bob", 2)]
      ∧ (λ r, (Role.id r, Role.name r)) <$> roles (db_after s)
        = [(1, "admin"); (2, "user")]
      ∧ (λ ur, (UserRole.userId ur, UserRole.roleId ur)) <$> userRoles (db_after s)
        = [(1, 1); (2, 1)].
Proof. split; [done|]. eexists. split; [by vm_compute|done]. Qed.

End Properties.

(** ** Further properties of the server *)

Section Further.
Context `{Platform}.

(** *** The role registry *)

(** X1: [ensureRoleExists] never throws; it returns a role of the
    given name, and calling it again under that name, with whatever
    permissions, returns the same row and writes nothing: a role's
    permissions are those of its first creation. *)
Theorem X1_ensureRoleExists_get_or_create (name : string)
    (permissions : gmap string JVal) (db : Db) :
  ∃ r db',
    ensureRoleExists name permissions db = (Some r, db')
    ∧ Role.name r = name
    ∧ (name ∈ Role.name <$> roles db → db' = db)
    ∧ ∀ permissions', ensureRoleExists name permissions' db' = (Some r, db').
Proof.
  unfold ensureRoleExists, bind, select, ret, insert_roles.
  destruct (head (filter (λ r, Role.name r = name) (roles db)))
    as [existing|] eqn:Hhead; simpl.
  - exists existing, db. rewrite Hhead.
    apply head_Some_elem_of, list_elem_of_filter in Hhead as [Hn _].
    by split_and!.
  - apply head_None in Hhead.
    assert (name ∉ Role.name <$> roles db) as Hfresh.
    { intros (r & -> & Hin)%list_elem_of_fmap.
      by apply (filter_nil_not_elem_of _ _ r Hhead). }
    rewrite bool_decide_false by done. simpl.
    eexists _, _. split_and!; try done. intros permissions'. simpl.
    by rewrite filter_app, Hhead, filter_cons_True, filter_nil.
Qed.

(** *** Invariants over runs of the server *)

Create HintDb keep.

#[local] Hint Resolve preserves_ret preserves_throw preserves_select
  crypto_hash_preserves timingSafeEqual_preserves own_object_preserves : keep.

(** Walks through a handler, statement by statement. *)
Ltac keep :=
  repeat first
    [ solve [eauto with keep]
    | apply keeps_send
    | apply keeps_try_catch
    | apply keeps_if
    | apply preserves_bind; [|intros ?]
    | match goal with
      | |- preserves _ (match ?x with _ => _ end) => destruct x
      | |- keeps _ (match ?x with _ => _ end) => destruct x
      end ].

Lemma reachable_step (db : Db) (req : Request) : reachable db → reachable (step db req).
Proof.
  intros (db0 & reqs & Hfresh & ->). exists db0, (reqs ++ [req])%list.
  split; [done|]. by rewrite foldl_app.
Qed.

Lemma reachable_ind (I : Db → Prop) :
  (∀ db0, fresh db0 → I db0) →
  (∀ db req, reachable db → I db → I (step db req)) →
  ∀ db, reachable db → I db.
Proof.
  intros Hfresh Hstep db (db0 & reqs & H0 & ->).
  induction reqs as [|req reqs IH] using rev_ind; [by apply Hfresh|].
  rewrite foldl_app. simpl. apply Hstep; [by exists db0, reqs|done].
Qed.

(** Only five handlers write; whatever they keep, every request keeps. *)
Lemma serve_keeps (I : Db → Prop) :
  (∀ req body, keeps I (register req body)) →
  (∀ user req userId roleId, keeps I (assign_role user req userId roleId)) →
  (∀ user req body, keeps I (post_objects user req body)) →
  (∀ user req id body, keeps I (put_objects user req id body)) →
  (∀ user req id, keeps I (delete_object user req id)) →
  ∀ req db name s, I db → serve req db = Some (name, s) → I (db_after s).
Proof.
  intros Hreg Hassign Hpost Hput Hdelete req db name s HI. unfold serve.
  destruct (passport_session req db) as [user req'].
  destruct (dispatch registerRoutes user req') as [[name' handler]|] eqn:Hd; [|done].
  simpl. destruct (handler db) as [reply db'] eqn:Hh. intros [= _ <-]. simpl.
  assert (keeps I handler) as Hkeeps; [|by eapply Hkeeps].
  clear Hh. revert Hd.
  pose proof (login_keeps I). pose proof (logout_keeps I).
  pose proof (get_user_keeps I). pose proof (get_roles_keeps I).
  pose proof (company_users_keeps I). pose proof (get_objects_keeps I).
  pose proof (get_object_types_keeps I).
  destruct user as [u|];
    [rewrite dispatch_authenticated|rewrite dispatch_anonymous];
    destruct (endpoint req'); intros [= <- <-];
    unfold post_users_roles, get_users; keep.
Qed.

Lemma step_keeps (I : Db → Prop) :
  (∀ req db name s, I db → serve req db = Some (name, s) → I (db_after s)) →
  ∀ db req, I db → I (step db req).
Proof.
  intros Hserve db req HI. unfold step.
  destruct (serve req db) as [[name s]|] eqn:Hs; [|done]. by eapply Hserve.
Qed.

(** The handlers on [objects] leave the account tables alone. *)
Lemma post_objects_accounts (P : _ → Prop) (user : option ReqUser) (req : Request)
    (body : ObjectBody) :
  keeps (λ db, P (accounts db)) (post_objects user req body).
Proof. pose proof (insert_objects_accounts P). unfold post_objects. keep. Qed.

Lemma put_objects_accounts (P : _ → Prop) (user : option ReqUser) (req : Request)
    (id : option Z) (body : ObjectBody) :
  keeps (λ db, P (accounts db)) (put_objects user req id body).
Proof. pose proof (update_objects_accounts P). unfold put_objects. keep. Qed.

Lemma delete_object_accounts (P : _ → Prop) (user : option ReqUser) (req : Request)
    (id : option Z) :
  keeps (λ db, P (accounts db)) (delete_object user req id).
Proof. pose proof (delete_objects_accounts P). unfold delete_object. keep. Qed.

(** The account statements leave [objects] alone. *)
Lemma insert_companies_objects (P : _ → _ → Prop) (name : option string) :
  preserves (λ db, P (objects db) (objects_seq db)) (insert_companies name).
Proof.
  intros db a db' HI. unfold insert_companies. by case_match; intros [= _ <-].
Qed.

Lemma insert_roles_objects (P : _ → _ → Prop) (name : string)
    (permissions : gmap string JVal) :
  preserves (λ db, P (objects db) (objects_seq db)) (insert_roles name permissions).
Proof.
  intros db a db' HI. unfold insert_roles. by case_match; intros [= _ <-].
Qed.

Lemma insert_users_objects (P : _ → _ → Prop) (username : option string)
    (password : string) (companyId : Z) :
  preserves (λ db, P (objects db) (objects_seq db))
            (insert_users username password companyId).
Proof.
  intros db a db' HI. unfold insert_users. by repeat case_match; intros [= _ <-].
Qed.

Lemma insert_userRoles_objects (P : _ → _ → Prop) (userId roleId : option Z) :
  preserves (λ db, P (objects db) (objects_seq db)) (insert_userRoles userId roleId).
Proof.
  intros db a db' HI. unfold insert_userRoles. by repeat case_match; intros [= _ <-].
Qed.

Lemma register_objects (P : _ → _ → Prop) (req : Request) (body : RegisterBody) :
  keeps (λ db, P (objects db) (objects_seq db)) (register req body).
Proof.
  pose proof (insert_companies_objects P). pose proof (insert_roles_objects P).
  pose proof (insert_users_objects P). pose proof (insert_userRoles_objects P).
  unfold register, user_by_username, register_rows, register_role, ensureRoleExists.
  keep.
Qed.

Lemma assign_role_objects (P : _ → _ → Prop) (user : option ReqUser) (req : Request)
    (userId roleId : option Z) :
  keeps (λ db, P (objects db) (objects_seq db)) (assign_role user req userId roleId).
Proof.
  pose proof (insert_userRoles_objects P). unfold assign_role.
  destruct userId as [i|]; [destruct (int4 i)|]; keep.
Qed.

Lemma keeps_by_accounts {A} (I : Db → Prop) (handler : Db → A * Db) :
  (∀ d d', accounts d' = accounts d → I d → I d') →
  (∀ P : _ → Prop, keeps (λ db, P (accounts db)) handler) →
  keeps I handler.
Proof.
  intros Hframe Hh db a db' HI Hdb'. eapply Hframe; [|done].
  by eapply (Hh (λ acc, acc = accounts db)).
Qed.

Lemma keeps_by_objects {A} (I : Db → Prop) (handler : Db → A * Db) :
  (∀ d d', objects d' = objects d → objects_seq d' = objects_seq d → I d → I d') →
  (∀ P : _ → _ → Prop, keeps (λ db, P (objects db) (objects_seq db)) handler) →
  keeps I handler.
Proof.
  intros Hframe Hh db a db' HI Hdb'.
  destruct (Hh (λ objs seq, objs = objects db ∧ seq = objects_seq db)
              db a db' (conj eq_refl eq_refl) Hdb') as [Ho Hs].
  by eapply Hframe.
Qed.

(** *** Object ids *)

Lemma insert_objects_wf_objects (now : Z) (values : ObjectBody) :
  preserves wf_objects (insert_objects now values).
Proof.
  intros db a db' [Hids Hnd]. unfold insert_objects.
  assert (wf_objects (nextval_objects db)) as Hgap.
  { split; simpl; [|done]. intros o Hin. specialize (Hids o Hin). lia. }
  repeat case_match; intros [= _ <-]; try done. split; simpl.
  - intros o [Hin| ->%list_elem_of_singleton]%elem_of_app; simpl; [|lia].
    specialize (Hids o Hin). lia.
  - rewrite fmap_app. apply NoDup_app. split_and!; [done| |apply NoDup_singleton].
    intros i (o & -> & Hin)%list_elem_of_fmap Heq%list_elem_of_singleton.
    specialize (Hids o Hin). simpl in *. lia.
Qed.

(** [UPDATE] keeps the ids, row by row. *)
Lemma update_rows_ids (db : Db) (set : ObjectBody) (i : Z)
    (rows rows' returned : list Object.t) :
  update_rows db set i rows = Some (rows', returned) →
  Object.id <$> rows' = Object.id <$> rows.
Proof.
  revert rows' returned. induction rows as [|r rows IH]; intros rows' returned; simpl.
  - by intros [= <- <-].
  - destruct (update_rows db set i rows) as [[rest ret']|]; [|done]. simpl.
    case_bool_decide.
    + destruct (patch_row set r) as [r'|] eqn:Hpatch; [|done]. simpl.
      destruct (row_ok db r'); [|done]. intros [= <- <-].
      rewrite !fmap_cons, (IH rest ret' eq_refl). f_equal.
      unfold patch_row in Hpatch. repeat case_match; by simplify_eq/=.
    + intros [= <- <-]. by rewrite !fmap_cons, (IH rest ret' eq_refl).
Qed.

Lemma update_objects_wf_objects (set : ObjectBody) (i : Z) :
  preserves wf_objects (update_objects set i).
Proof.
  intros db a db' [Hids Hnd]. unfold update_objects.
  destruct (no_values set); [by intros [= _ <-]|].
  destruct (update_rows db set i (objects db)) as [[rows returned]|] eqn:Hrows;
    intros [= _ <-]; [|done].
  apply update_rows_ids in Hrows. split; simpl; [|by rewrite Hrows].
  intros o Hin. apply (list_elem_of_fmap_2 Object.id) in Hin.
  rewrite Hrows in Hin. apply list_elem_of_fmap in Hin as (o' & -> & Hin).
  by apply Hids.
Qed.

Lemma delete_objects_wf_objects (i : Z) : preserves wf_objects (delete_objects i).
Proof.
  intros db a db' [Hids Hnd]. intros [= _ <-]. split; simpl.
  - intros o [_ Hin]%list_elem_of_filter. by apply Hids.
  - eapply sublist_NoDup; [done|]. apply fmap_sublist, sublist_filter.
Qed.

Lemma wf_objects_serve (req : Request) (db : Db) (name : LayerName) (s : Served) :
  wf_objects db → serve req db = Some (name, s) → wf_objects (db_after s).
Proof.
  assert (∀ d d', objects d' = objects d → objects_seq d' = objects_seq d →
                  wf_objects d → wf_objects d') as Hframe.
  { intros d d' Ho Hs [Hids Hnd]. split; by rewrite ?Ho, ?Hs. }
  pose proof insert_objects_wf_objects. pose proof update_objects_wf_objects.
  pose proof delete_objects_wf_objects.
  apply (serve_keeps wf_objects).
  - intros. apply keeps_by_objects; [done|]. intros P. apply register_objects.
  - intros. apply keeps_by_objects; [done|]. intros P. apply assign_role_objects.
  - intros. unfold post_objects. keep.
  - intros. unfold put_objects. keep.
  - intros. unfold delete_object. keep.
Qed.

Lemma reachable_wf_objects (db : Db) : reachable db → wf_objects db.
Proof.
  apply (reachable_ind wf_objects).
  - intros db0 (_ & _ & _ & _ & Ho).
    split; rewrite Ho; [by intros ? ?%elem_of_nil|apply NoDup_nil_2].
  - intros d req _. apply step_keeps. apply wf_objects_serve.
Qed.

Lemma NoDup_key_inj {A} (key : A → Z) (l : list A) (x y : A) :
  NoDup (key <$> l) → x ∈ l → y ∈ l → key y = key x → y = x.
Proof.
  intros Hnd Hx Hy Hk.
  assert (y ∈ filter (λ z, key z = key x) l) as Hin by by apply list_elem_of_filter.
  rewrite (filter_key_NoDup key l x Hnd Hx) in Hin.
  by apply list_elem_of_singleton in Hin.
Qed.

Lemma passport_session_accounts (req : Request) (db db' : Db) :
  accounts db' = accounts db →
  passport_session req db' = passport_session req db.
Proof.
  intros [= Hc Hr Hur Hu _ _ _].
  unfold passport_session, deserializeUser, getUserRoles.
  by rewrite Hu, Hur, Hr.
Qed.

Lemma own_object_Some (u : ReqUser) (i : Z) (db : Db) (o : Object.t) :
  int4 i = true →
  NoDup (Object.id <$> objects db) →
  o ∈ objects db → Object.id o = i →
  Object.companyId o = User.companyId (row u) →
  own_object (Some u) (Some i) db = (Some (Some o), db).
Proof.
  intros Hint Hnd Hin Hid Hc. unfold own_object, select. rewrite Hint.
  destruct (head_filter_elem_of
              (λ o, Is_true (eq_id i o && eq_companyId (companyId_of (Some u)) o))
              (objects db) o Hin) as [o' Ho'].
  { apply Is_true_true, andb_true_iff. split; apply bool_decide_eq_true; [done|].
    simpl. by rewrite Hc. }
  rewrite Ho'. do 3 f_equal.
  apply head_Some_elem_of, list_elem_of_filter in Ho' as [Hp Hin'].
  apply Is_true_true, andb_true_iff in Hp as [Hid'%bool_decide_eq_true _].
  apply (NoDup_key_inj Object.id (objects db)); congruence.
Qed.

(** X2: deleting an object of one's own company removes that object
    and nothing else: every other object, of whatever company, stays as
    it was, the account tables are untouched, and the same request sent
    again answers 404.  What is asked of the table is its primary key:
    no two objects share an [id], and an [id] is an [integer]. *)
Theorem X2_delete_removes_exactly_one (req req' : Request) (db : Db)
    (u : ReqUser) (i : Z) (o : Object.t) :
  NoDup (Object.id <$> objects db) →
  passport_session req db = (Some u, req') →
  endpoint req = DELETE_objects (Some i) →
  has_permission "delete" (Some u) = true →
  o ∈ objects db → Object.id o = i → int4 i = true →
  Object.companyId o = User.companyId (row u) →
  ∃ s,
    serve req db = Some (routes_delete_objects, s)
    ∧ response s = mkResponse 200 (Message "Object deleted successfully")
    ∧ accounts (db_after s) = accounts db
    ∧ (∀ o', o' ∈ objects (db_after s) ↔ o' ∈ objects db ∧ o' ≠ o)
    ∧ ∃ s',
        serve req (db_after s) = Some (routes_delete_objects, s')
        ∧ response s' = mkResponse 404 (Message "Object not found")
        ∧ db_after s' = db_after s.
Proof.
  intros Hnd Hsession He Hperm Hin Hid Hint Hc.
  pose proof (passport_session_Some _ _ _ _ Hsession) as [-> _].
  pose proof (dispatch_authenticated u req) as Hd. rewrite He in Hd.
  set (db' := set_objects (filter (λ o', Object.id o' ≠ i) (objects db))
                          (objects_seq db) db).
  assert (delete_object (Some u) req (Some i) db
          = (send req 200 (Message "Object deleted successfully"), db')) as Hdel.
  { unfold delete_object, isAuthenticated.
    rewrite Hperm, bool_decide_true by eauto. cbn [negb].
    unfold try_catch, bind. by rewrite (own_object_Some u i db o). }
  assert (∀ o', o' ∈ objects db' ↔ o' ∈ objects db ∧ o' ≠ o) as Hobjs.
  { intros o'. simpl. rewrite list_elem_of_filter. split.
    - intros [Hne Hin']. split; [done|]. intros ->. by destruct Hne.
    - intros [Hin' Hne]. split; [|done]. intros Hid'. destruct Hne.
      apply (NoDup_key_inj Object.id (objects db)); congruence. }
  eexists. split; [exact (serve_unfold _ _ _ _ _ _ _ _ Hsession Hd Hdel)|].
  simpl. split_and!; try done.
  assert (passport_session req db' = (Some u, req)) as Hsession'
    by by rewrite (passport_session_accounts req db db').
  assert (delete_object (Some u) req (Some i) db'
          = (send req 404 (Message "Object not found"), db')) as Hdel'.
  { unfold delete_object, isAuthenticated.
    rewrite Hperm, bool_decide_true by eauto. cbn [negb].
    unfold try_catch, bind. rewrite own_object_None; [done|done|].
    intros o' [Hin' Hne]%Hobjs Hid' _. destruct Hne.
    apply (NoDup_key_inj Object.id (objects db)); congruence. }
  eexists. split; [exact (serve_unfold _ _ _ _ _ _ _ _ Hsession' Hd Hdel')|].
  done.
Qed.

(** Row by row, [UPDATE] keeps id and timestamps and leaves the rows
    with another id as they are. *)
Lemma update_rows_rowwise (db : Db) (set : ObjectBody) (i : Z)
    (rows rows' returned : list Object.t) :
  update_rows db set i rows = Some (rows', returned) →
  Forall2 (λ o o', Object.id o' = Object.id o
                   ∧ Object.createdAt o' = Object.createdAt o
                   ∧ Object.updatedAt o' = Object.updatedAt o
                   ∧ (Object.id o ≠ i → o' = o)) rows rows'.
Proof.
  revert rows' returned. induction rows as [|r rows IH]; intros rows' returned; simpl.
  - intros [= <- <-]. constructor.
  - destruct (update_rows db set i rows) as [[rest ret']|]; [|done]. simpl.
    case_bool_decide.
    + destruct (patch_row set r) as [r'|] eqn:Hpatch; [|done]. simpl.
      destruct (row_ok db r'); [|done]. intros [= <- <-].
      constructor; [|by eapply IH].
      unfold patch_row in Hpatch. repeat case_match; by simplify_eq/=.
    + intros [= <- <-]. constructor; [done|by eapply IH].
Qed.

(** X3: an update that answers 200 neither adds nor removes a row; it
    keeps every object's [id], [createdAt] and [updatedAt] (the update
    does not advance [updatedAt]), leaves the objects with another id
    as they are, and does not touch the account tables.  The body is an
    [ObjectBody]: it has none of the keys [id], [createdAt] and
    [updatedAt]. *)
Theorem X3_put_keeps_ids_and_timestamps (req : Request) (db : Db)
    (id : option Z) (body : ObjectBody) (name : LayerName) (s : Served) :
  endpoint req = PUT_objects id body →
  serve req db = Some (name, s) →
  status (response s) = 200 →
  accounts (db_after s) = accounts db
  ∧ objects_seq (db_after s) = objects_seq db
  ∧ Forall2 (λ o o', Object.id o' = Object.id o
                     ∧ Object.createdAt o' = Object.createdAt o
                     ∧ Object.updatedAt o' = Object.updatedAt o
                     ∧ (Some (Object.id o) ≠ id → o' = o))
            (objects db) (objects (db_after s)).
Proof.
  intros He. unfold serve.
  destruct (passport_session req db) as [user req'] eqn:Hsession.
  apply passport_session_request in Hsession as (He' & _ & _ & _).
  rewrite He in He'.
  destruct user as [u|];
    [rewrite dispatch_authenticated|rewrite dispatch_anonymous]; rewrite He'; simpl;
    [|by intros [= _ <-]].
  destruct (put_objects (Some u) req' id body db) as [reply db'] eqn:Hput.
  intros [= _ <-]. simpl. revert Hput. unfold put_objects. simpl.
  destruct (has_permission "update" (Some u)); simpl; [|by intros [= <- <-]].
  unfold try_catch, bind.
  destruct (own_object (Some u) id db) as [[[own|]|] d] eqn:Hown;
    [|by intros [= <- <-]..].
  assert (d = db) as -> by (by eapply own_object_reads).
  destruct id as [i|]; [|done].
  unfold update_objects. destruct (no_values body); [by intros [= <- <-]|].
  destruct (update_rows db body (default 0 (Some i)) (objects db))
    as [[rows returned]|] eqn:Hrows; [|by intros [= <- <-]].
  unfold ret. intros [= <- <-] _. simpl. split_and!; try done.
  eapply Forall2_impl; [by eapply update_rows_rowwise|].
  intros o o' (? & ? & ? & Hother). split_and!; try done.
  intros Hne. apply Hother. simpl. intros Heq. apply Hne. by rewrite Heq.
Qed.

(** The listing without [search], [type] and [fields]: the objects of
    the caller's company, all of them. *)
Lemma get_objects_unfiltered (u : ReqUser) (req : Request) (q : ObjectsQuery)
    (db : Db) :
  truthy_param (q_search q) = false →
  truthy_param (q_type q) = false ∨ q_type q = Some "_all" →
  q_fields q = FieldsAbsent →
  ∃ l,
    get_objects (Some u) req q db = (send req 200 (ManyObjects l), db)
    ∧ ∀ o, o ∈ l ↔ o ∈ objects db ∧ Object.companyId o = User.companyId (row u).
Proof.
  intros Hsearch Htype Hfields. unfold get_objects, objects_query. simpl.
  rewrite Hsearch, Hfields.
  assert (truthy_param (q_type q) && negb (bool_decide (q_type q = Some "_all"))
          = false) as ->.
  { destruct Htype as [->| ->]; [done|]. by rewrite andb_comm. }
  unfold try_catch, bind, ret, execute. rewrite sorting_where. simpl.
  eexists. split; [done|]. intros o.
  rewrite elem_of_sort_rows, list_elem_of_filter. unfold eq_companyId.
  rewrite Is_true_true, bool_decide_eq_true. split; intros [Hc Hin]; split; congruence.
Qed.

(** X4: an object created with 200 gets an id no object had, the
    request's time as both timestamps, the caller as [createdBy] and
    the caller's company, and the name, type, description and fields of
    the body; it is appended to the table, and an unfiltered listing by
    the same session shows it.  The body is an [ObjectBody]: it has
    none of the keys [id], [createdAt] and [updatedAt].  What is asked
    of the table is what its sequence guarantees, [wf_objects]. *)
Theorem X4_post_then_list (req req' : Request) (db : Db) (u : ReqUser)
    (body : ObjectBody) (name : LayerName) (s : Served) :
  wf_objects db →
  passport_session req db = (Some u, req') →
  endpoint req = POST_objects body →
  serve req db = Some (name, s) →
  status (response s) = 200 →
  ∃ o,
    json (response s) = OneObject (Some o)
    ∧ objects (db_after s) = (objects db ++ [o])%list
    ∧ accounts (db_after s) = accounts db
    ∧ (Object.id o ∉ (Object.id <$> objects db))
    ∧ Object.createdAt o = now req ∧ Object.updatedAt o = now req
    ∧ Object.createdBy o = Some (User.id (row u))
    ∧ Object.companyId o = User.companyId (row u)
    ∧ b_name body = Some (Some (Object.name o))
    ∧ b_type body = Some (Some (Object.type o))
    ∧ b_fields body = Some (Some (Object.fields o))
    ∧ mjoin (b_description body) = Object.description o
    ∧ ∀ req2 q,
        session req2 = session req →
        endpoint req2 = GET_objects q →
        truthy_param (q_search q) = false →
        truthy_param (q_type q) = false ∨ q_type q = Some "_all" →
        q_fields q = FieldsAbsent →
        ∃ s2,
          serve req2 (db_after s) = Some (routes_objects, s2)
          ∧ status (response s2) = 200
          ∧ o ∈ objects_in (json (response s2))
          ∧ db_after s2 = db_after s.
Proof.
  intros [Hids _] Hsession He.
  pose proof (passport_session_Some _ _ _ _ Hsession) as (-> & sid & Hsid & Hu).
  unfold serve at 1. rewrite Hsession, dispatch_authenticated, He. simpl.
  destruct (post_objects (Some u) req body db) as [reply db'] eqn:Hpost.
  intros [= _ <-]. simpl. revert Hpost. unfold post_objects. simpl.
  destruct (has_permission "create" (Some u)); simpl; [|by intros [= <- <-]].
  unfold try_catch, bind.
  destruct (insert_objects (now req) (stamped body u) db) as [[o|] d] eqn:Hins;
    unfold ret; intros [= <- <-]; [|done].
  intros _. exists o. unfold insert_objects in Hins. simpl in Hins.
  destruct (b_name body) as [[n|]|] eqn:Hn; try done.
  destruct (b_type body) as [[t|]|] eqn:Ht; try done.
  destruct (b_fields body) as [[f|]|] eqn:Hf; try done. simpl in Hins.
  case_match; [|done]. injection Hins as <- <-. simpl.
  split_and!; try done.
  { intros (o' & Hid & Hin)%list_elem_of_fmap. apply Hids in Hin. simpl in *. lia. }
  intros req2 q Hs2 Hq Hsearch Htype Hfields.
  set (o := Object.mk _ _ _ _ _ _ _ _ _).
  set (db' := set_objects _ _ db).
  assert (passport_session req2 db' = (Some u, req2)) as Hsession2.
  { unfold passport_session. rewrite Hs2, Hsid. simpl.
    unfold deserializeUser, getUserRoles in *. simpl. by rewrite Hu. }
  destruct (get_objects_unfiltered u req2 q db' Hsearch Htype Hfields)
    as (l & Hget & Hl).
  eexists. split.
  { eapply serve_unfold; [done| |done]. by rewrite dispatch_authenticated, Hq. }
  simpl. split_and!; try done. apply Hl. split; [|done].
  simpl. apply elem_of_app. right. by apply list_elem_of_singleton.
Qed.

(** *** Order of the listing *)

Lemma StronglySorted_mono {A} (R1 R2 : relation A) (l : list A) :
  (∀ a b, R1 a b → R2 a b) → StronglySorted R1 l → StronglySorted R2 l.
Proof.
  intros Himpl. induction l as [|x l IH]; [constructor|].
  rewrite !StronglySorted_cons. intros [Hall Hl]. split; [|by apply IH].
  eapply Forall_impl; [done|]. apply Himpl.
Qed.

Lemma execute_sorted (query : PgSelect) (db db' : Db) (l : list Object.t)
    (le : Object.t → Object.t → bool) :
  config_orderBy query = Some le →
  Transitive (λ a b, Is_true (le a b)) →
  Total (λ a b, Is_true (le a b)) →
  execute query db = (Some l, db') →
  StronglySorted (λ a b, Is_true (le a b)) l.
Proof.
  intros Hle Htrans Htotal. unfold execute, select, throw. rewrite Hle.
  repeat case_match; intros [= <- <-]; by apply StronglySorted_merge_sort.
Qed.

Lemma objects_query_sorting (user : option ReqUser) (q : ObjectsQuery)
    (db db' : Db) (query : PgSelect) :
  objects_query user q db = (Some query, db') →
  config_orderBy query
  = config_orderBy (sorting (q_sortBy q) (q_sortOrder q) select_from_objects).
Proof.
  unfold objects_query, bind, ret, throw.
  destruct (q_fields q); intros [= <- <-]; unfold sorting; by repeat case_match.
Qed.

(** X5: the listing comes ordered by [createdAt].  Without a [sortBy],
    with one that is none of "name", "type" and "createdAt", or with
    "createdAt" and [sortOrder] "desc", later-created objects come
    first; with "createdAt" and any other [sortOrder], or none, earlier
    ones come first. *)
Theorem X5_listing_sorted_by_createdAt (user : option ReqUser) (req : Request)
    (q : ObjectsQuery) (db db' : Db) (reply : Reply) :
  get_objects user req q db = (reply, db') →
  status (reply_response reply) = 200 →
  (q_sortBy q ≠ Some "name" → q_sortBy q ≠ Some "type" →
   (q_sortBy q = Some "createdAt" → q_sortOrder q = Some "desc") →
   StronglySorted (λ a b, (Object.createdAt b ≤ Object.createdAt a)%Z)
                  (objects_in (json (reply_response reply))))
  ∧ (q_sortBy q = Some "createdAt" → q_sortOrder q ≠ Some "desc" →
     StronglySorted (λ a b, (Object.createdAt a ≤ Object.createdAt b)%Z)
                    (objects_in (json (reply_response reply)))).
Proof.
  unfold get_objects. destruct (negb (isAuthenticated user)); [by intros [= <- <-]|].
  unfold try_catch, bind at 1.
  destruct (objects_query user q db) as [[query|] d] eqn:Hquery;
    [|by intros [= <- <-]].
  apply objects_query_sorting in Hquery. unfold bind, ret.
  destruct (execute query d) as [[l|] d'] eqn:Hexec; intros [= <- <-]; [|done].
  intros _. simpl. split.
  - intros Hname Htype Hcreated.
    assert (config_orderBy query = Some (desc Z.leb Object.createdAt)) as Hle.
    { rewrite Hquery. unfold sorting. repeat case_match; simpl; try done.
      all: repeat case_bool_decide; try done.
      by destruct Hcreated. }
    eapply (StronglySorted_mono (λ a b, Is_true (desc Z.leb Object.createdAt a b)));
      [|eapply execute_sorted; [done| | |done]].
    + intros a b Hab. unfold desc in Hab. by apply Is_true_true, Z.leb_le in Hab.
    + intros a b c. unfold desc. rewrite !Is_true_true, !Z.leb_le. lia.
    + intros a b. unfold desc. rewrite !Is_true_true, !Z.leb_le. lia.
  - intros Hcreated Horder.
    assert (config_orderBy query = Some (asc Z.leb Object.createdAt)) as Hle.
    { rewrite Hquery. unfold sorting. rewrite Hcreated. simpl.
      by rewrite (bool_decide_false (q_sortOrder q = Some "desc")). }
    eapply (StronglySorted_mono (λ a b, Is_true (asc Z.leb Object.createdAt a b)));
      [|eapply execute_sorted; [done| | |done]].
    + intros a b Hab. unfold asc in Hab. by apply Is_true_true, Z.leb_le in Hab.
    + intros a b c. unfold asc. rewrite !Is_true_true, !Z.leb_le. lia.
    + intros a b. unfold asc. rewrite !Is_true_true, !Z.leb_le. lia.
Qed.

(** *** Object types *)

Lemma elem_of_distinct (l : list string) (x : string) : x ∈ distinct l ↔ x ∈ l.
Proof.
  induction l as [|y l IH]; simpl; [done|].
  rewrite !elem_of_cons, list_elem_of_filter, IH.
  destruct (decide (x = y)); tauto.
Qed.

Lemma NoDup_distinct (l : list string) : NoDup (distinct l).
Proof.
  induction l as [|y l IH]; simpl; [apply NoDup_nil_2|].
  apply NoDup_cons. split; [|by apply NoDup_filter].
  by intros [Hne _]%list_elem_of_filter.
Qed.

(** X6: the type list of [GET /api/object-types] has no duplicates and
    holds exactly the five suggested types and the types of the
    caller's company's objects; types used only by other companies do
    not show. *)
Theorem X6_object_types (u : ReqUser) (req : Request) (db : Db) :
  ∃ l,
    get_object_types (Some u) req db = (send req 200 (ManyStrings l), db)
    ∧ NoDup l
    ∧ ∀ t, t ∈ l ↔
        t ∈ suggestedTypes
        ∨ ∃ o, o ∈ objects db ∧ Object.companyId o = User.companyId (row u)
               ∧ Object.type o = t.
Proof.
  unfold get_object_types, try_catch, bind, select, ret. simpl.
  eexists. split; [done|]. split; [apply NoDup_distinct|].
  intros t.
  rewrite elem_of_distinct, elem_of_app, elem_of_distinct, list_elem_of_fmap.
  split.
  - intros [(o & -> & [Hc Hin]%list_elem_of_filter)|Hs]; [right|by left].
    exists o. split_and!; try done.
    apply Is_true_true, bool_decide_eq_true in Hc. by simplify_eq.
  - intros [Hs|(o & Hin & Hc & <-)]; [by right|left].
    exists o. split; [done|]. apply list_elem_of_filter. split; [|done].
    apply Is_true_true, bool_decide_eq_true. simpl. by rewrite Hc.
Qed.

(** *** The account tables only grow *)

Lemma grown_refl (db : Db) : grown db db.
Proof. by split_and!. Qed.

Lemma subseteq_snoc {A} (l k : list A) (x : A) : l ⊆ k → l ⊆ (k ++ [x])%list.
Proof. intros Hsub y Hy. apply elem_of_app. left. by apply Hsub. Qed.

Lemma insert_companies_grown (db0 : Db) (name : option string) :
  preserves (grown db0) (insert_companies name).
Proof.
  intros db a db' (Hc & Hr & Hur & Hu). unfold insert_companies.
  case_match; intros [= _ <-]; split_and!; simpl; try done.
  by apply subseteq_snoc.
Qed.

Lemma insert_roles_grown (db0 : Db) (name : string) (permissions : gmap string JVal) :
  preserves (grown db0) (insert_roles name permissions).
Proof.
  intros db a db' (Hc & Hr & Hur & Hu). unfold insert_roles.
  case_match; intros [= _ <-]; split_and!; simpl; try done.
  by apply subseteq_snoc.
Qed.

Lemma insert_users_grown (db0 : Db) (username : option string) (password : string)
    (companyId : Z) :
  preserves (grown db0) (insert_users username password companyId).
Proof.
  intros db a db' (Hc & Hr & Hur & Hu). unfold insert_users.
  repeat case_match; intros [= _ <-]; split_and!; simpl; try done.
  by apply subseteq_snoc.
Qed.

Lemma insert_userRoles_grown (db0 : Db) (userId roleId : option Z) :
  preserves (grown db0) (insert_userRoles userId roleId).
Proof.
  intros db a db' (Hc & Hr & Hur & Hu). unfold insert_userRoles.
  repeat case_match; intros [= _ <-]; split_and!; simpl; try done.
  by apply subseteq_snoc.
Qed.

Lemma serve_grown (db0 : Db) (req : Request) (db : Db) (name : LayerName) (s : Served) :
  grown db0 db → serve req db = Some (name, s) → grown db0 (db_after s).
Proof.
  assert (∀ d d', accounts d' = accounts d → grown db0 d → grown db0 d') as Hframe.
  { intros d d' [= Hc Hr Hur Hu _ _ _]. unfold grown. by rewrite Hc, Hr, Hur, Hu. }
  pose proof (insert_companies_grown db0). pose proof (insert_roles_grown db0).
  pose proof (insert_users_grown db0). pose proof (insert_userRoles_grown db0).
  apply (serve_keeps (grown db0)).
  - intros. unfold register, user_by_username, register_rows, register_role,
      ensureRoleExists. keep.
  - intros ? ? [i|] ?; unfold assign_role; [destruct (int4 i)|]; keep.
  - intros. apply keeps_by_accounts; [done|]. intros P. apply post_objects_accounts.
  - intros. apply keeps_by_accounts; [done|]. intros P. apply put_objects_accounts.
  - intros. apply keeps_by_accounts; [done|]. intros P. apply delete_object_accounts.
Qed.

(** X7: no request takes away or alters a row of [companies],
    [roles], [user_roles] or [users]: whatever the request and however
    it ends, every such row is still there afterwards.  Roles are never
    revoked, passwords and company memberships never change. *)
Theorem X7_accounts_append_only (db : Db) (req : Request) : grown db (step db req).
Proof.
  unfold step. destruct (serve req db) as [[name s]|] eqn:Hs; [|apply grown_refl].
  simpl. eapply serve_grown; [apply grown_refl|done].
Qed.

(** *** What the registry can hold *)

Lemma registry_snoc (rs : list Role.t) (r : Role.t) :
  registry rs → Role.name r ∉ Role.name <$> rs →
  (Role.name r = "admin" ∧ Role.permissions r = adminPermissions)
  ∨ (Role.name r = "user" ∧ Role.permissions r = userPermissions) →
  registry (rs ++ [r]).
Proof.
  intros [Hnd Hall] Hfresh Hr. split.
  - rewrite fmap_app. apply NoDup_app. split_and!; [done| |apply NoDup_singleton].
    by intros n Hn ->%list_elem_of_singleton.
  - intros r' [Hin| ->%list_elem_of_singleton]%elem_of_app; [by apply Hall|done].
Qed.

Lemma ensureRoleExists_registry (name : string) (permissions : gmap string JVal) :
  (name = "admin" ∧ permissions = adminPermissions)
  ∨ (name = "user" ∧ permissions = userPermissions) →
  preserves (λ db, registry (roles db)) (ensureRoleExists name permissions).
Proof.
  intros Hname db a db' Hreg.
  unfold ensureRoleExists, bind, select, ret, insert_roles.
  destruct (head _); simpl; [by intros [= _ <-]|].
  case_bool_decide as Hin; intros [= _ <-]; [done|]. simpl.
  by apply registry_snoc.
Qed.

Lemma serve_registry (req : Request) (db : Db) (name : LayerName) (s : Served) :
  registry (roles db) → serve req db = Some (name, s) → registry (roles (db_after s)).
Proof.
  assert (∀ d d', accounts d' = accounts d →
                  registry (roles d) → registry (roles d')) as Hframe.
  { intros d d' [= Hc Hr Hur Hu _ _ _]. by rewrite Hr. }
  assert (∀ n, preserves (λ db, registry (roles db)) (insert_companies n)) as Hcompanies.
  { intros n d a d' HI. unfold insert_companies. by case_match; intros [= _ <-]. }
  assert (∀ n p c, preserves (λ db, registry (roles db)) (insert_users n p c)) as Husers.
  { intros n p c d a d' HI. unfold insert_users.
    by repeat case_match; intros [= _ <-]. }
  assert (∀ u r, preserves (λ db, registry (roles db)) (insert_userRoles u r)) as Hur.
  { intros u r d a d' HI. unfold insert_userRoles.
    by repeat case_match; intros [= _ <-]. }
  pose proof (ensureRoleExists_registry "admin" adminPermissions
                (or_introl (conj eq_refl eq_refl))).
  pose proof (ensureRoleExists_registry "user" userPermissions
                (or_intror (conj eq_refl eq_refl))).
  apply (serve_keeps (λ db, registry (roles db))).
  - intros. unfold register, user_by_username, register_rows, register_role. keep.
  - intros ? ? [i|] ?; unfold assign_role; [destruct (int4 i)|]; keep.
  - intros. apply keeps_by_accounts; [done|]. intros P. apply post_objects_accounts.
  - intros. apply keeps_by_accounts; [done|]. intros P. apply put_objects_accounts.
  - intros. apply keeps_by_accounts; [done|]. intros P. apply delete_object_accounts.
Qed.

Lemma reachable_registry (db : Db) : reachable db → registry (roles db).
Proof.
  apply (reachable_ind (λ db, registry (roles db))).
  - intros db0 (_ & Hr & _). rewrite Hr.
    split; simpl; [apply NoDup_nil_2|by intros ? ?%elem_of_nil].
  - intros d req _. apply (step_keeps (λ db, registry (roles db))).
    apply serve_registry.
Qed.

(** X8: whatever requests the server has served since its tables were
    empty, and wherever its sequences stood then, the role table holds
    at most the roles "admin" and "user", once each, with the
    permission sets written in the registration handler: no request
    creates another role or changes what a role permits. *)
Theorem X8_roles_are_admin_and_user (db : Db) :
  reachable db →
  NoDup (Role.name <$> roles db)
  ∧ (length (roles db) ≤ 2)%nat
  ∧ ∀ r, r ∈ roles db →
      (Role.name r = "admin" ∧ Role.permissions r = adminPermissions)
      ∨ (Role.name r = "user" ∧ Role.permissions r = userPermissions).
Proof.
  intros [Hnd Hall]%reachable_registry. split_and!; try done.
  rewrite <- (length_fmap Role.name).
  assert (Role.name <$> roles db ⊆ ["admin"; "user"]) as Hsub.
  { intros n (r & -> & Hin)%list_elem_of_fmap.
    destruct (Hall r Hin) as [[-> _]|[-> _]]; [left|right; left]. }
  apply (submseteq_length _ ["admin"; "user"]). by apply NoDup_submseteq.
Qed.

(** *** Registration, step by step *)

Lemma ensureRoleExists_Some (name : string) (permissions : gmap string JVal) (db : Db) :
  ∃ r db', ensureRoleExists name permissions db = (Some r, db').
Proof.
  unfold ensureRoleExists, bind, select, ret, insert_roles.
  destruct (head (filter (λ r, Role.name r = name) (roles db))) as [r|] eqn:Hhead;
    simpl; [by eauto|].
  apply head_None in Hhead. rewrite bool_decide_false; [by eauto|].
  intros (r & -> & Hin)%list_elem_of_fmap.
  by apply (filter_nil_not_elem_of _ _ r Hhead).
Qed.


(** The role assignment that closes a registration cannot fail. *)
Lemma register_role_Some (reg : Registration) (db db1 : Db) :
  wf db →
  userRoles db1 = userRoles db →
  users db1 = (users db ++ [newUser reg])%list →
  User.id (newUser reg) = users_seq db →
  companyUsers reg = [newUser reg] →
  adminRole reg ∈ roles db1 →
  ∃ u db2, register_role reg db1 = (Some u, db2).
Proof.
  intros Hwf Hur Hus Hid Hcu Hadmin.
  assert (roleToAssign reg = adminRole reg) as Hrole
    by (unfold roleToAssign; by rewrite Hcu).
  unfold register_role, bind, insert_userRoles, mem_id. rewrite Hrole.
  rewrite (bool_decide_false (UserRole.mk _ _ ∈ userRoles db1)).
  2:{ rewrite Hur. intros Hin%(wf_userRoles _ Hwf). simpl in Hin. lia. }
  rewrite (bool_decide_true (_ ∈ User.id <$> users db1)).
  2:{ rewrite Hus, fmap_app, elem_of_app. right. by left. }
  rewrite (bool_decide_true (_ ∈ Role.id <$> roles db1))
    by by apply list_elem_of_fmap_2.
  simpl. by eauto.
Qed.

Lemma register_rows_wf (salt : string) (body : RegisterBody) :
  preserves wf (register_rows salt body).
Proof.
  pose proof insert_companies_wf. pose proof ensureRoleExists_wf.
  pose proof insert_users_wf. unfold register_rows. keep.
Qed.

(** What registration stores as the password is the salted hash. *)
Lemma register_rows_password (salt : string) (body : RegisterBody) (db db1 : Db)
    (reg : Registration) :
  register_rows salt body db = (Some reg, db1) →
  ∃ pw, r_password body = Some pw
        ∧ User.password (newUser reg) = to_hex (scrypt pw salt) ++ "." ++ salt.
Proof.
  unfold register_rows, bind.
  destruct (insert_companies _ db) as [[c|] d1]; [|done].
  destruct (ensureRoleExists "admin" _ d1) as [[ra|] d2]; [|done].
  destruct (ensureRoleExists "user" _ d2) as [[ru|] d3]; [|done].
  destruct (crypto_hash salt _ d3) as [[hashed|] d4] eqn:Hh; [|done].
  destruct (insert_users _ hashed _ d4) as [[nu|] d5] eqn:H5; [|done].
  unfold select, ret. intros [= <- _]. simpl.
  unfold crypto_hash, ret, throw in Hh. destruct (r_password body) as [pw|]; [|done].
  injection Hh as <- _. exists pw. split; [done|].
  unfold insert_users in H5. repeat case_match; by simplify_eq/=.
Qed.

Lemma register_role_userRoles (reg : Registration) (db1 db2 : Db) (u : UserJson) :
  register_role reg db1 = (Some u, db2) →
  userRoles db2
  = (userRoles db1
     ++ [UserRole.mk (User.id (newUser reg)) (Role.id (roleToAssign reg))])%list
  ∧ roles db2 = roles db1.
Proof.
  unfold register_role, bind.
  destruct (insert_userRoles _ _ db1) as [[[]|] d] eqn:Hins; [|done].
  unfold select, ret. intros [= _ <-].
  unfold insert_userRoles in Hins.
  destruct (_ || _); [done|]. by injection Hins as <-.
Qed.




(** *** Every user is an admin *)

Lemma all_admins_grown (db d : Db) :
  all_admins db → grown db d → users d = users db → all_admins d.
Proof.
  intros Hall (_ & Hr & Hur & _) Hu u. rewrite Hu. intros Hin.
  destruct (Hall u Hin) as (r & Hrin & Hname & Hpair).
  exists r. split_and!; [by apply Hr|done|by apply Hur].
Qed.

Lemma register_rows_grown (db0 : Db) (salt : string) (body : RegisterBody) :
  preserves (grown db0) (register_rows salt body).
Proof.
  pose proof (insert_companies_grown db0). pose proof (insert_roles_grown db0).
  pose proof (insert_users_grown db0).
  unfold register_rows, ensureRoleExists. keep.
Qed.

Lemma register_rows_None (salt : string) (body : RegisterBody) (db db1 : Db) :
  register_rows salt body db = (None, db1) → users db1 = users db.
Proof.
  unfold register_rows, bind.
  destruct (insert_companies _ db) as [[c|] d1] eqn:H1.
  2:{ intros [= <-]. unfold insert_companies in H1. by case_match; simplify_eq. }
  assert (users d1 = users db) as Hu1
    by (unfold insert_companies in H1; by case_match; simplify_eq).
  destruct (ensureRoleExists_Some "admin" adminPermissions d1) as (ra & d2 & H2).
  rewrite H2.
  destruct (ensureRoleExists_Some "user" userPermissions d2) as (ru & d3 & H3).
  rewrite H3.
  apply ensureRoleExists_spec in H2 as (_ & _ & _ & Hu2 & _).
  apply ensureRoleExists_spec in H3 as (_ & _ & _ & Hu3 & _).
  destruct (crypto_hash salt _ d3) as [[hashed|] d4] eqn:H4.
  2:{ intros [= <-]. unfold crypto_hash, throw in H4. case_match; simplify_eq.
      congruence. }
  assert (d4 = d3) as ->
    by (unfold crypto_hash, ret, throw in H4; case_match; by simplify_eq).
  destruct (insert_users _ hashed _ d3) as [[nu|] d5] eqn:H5; [done|].
  intros [= <-]. unfold insert_users in H5.
  repeat case_match; simplify_eq; simpl; congruence.
Qed.

Lemma register_all_admins (req : Request) (body : RegisterBody) :
  keeps (λ db, wf db ∧ all_admins db) (register req body).
Proof.
  intros db reply db' [Hwf Hall] Hreg.
  split; [by eapply register_wf|]. revert Hreg.
  unfold register, try_catch, bind at 1, user_by_username, select.
  destruct (head _) as [existing|]; [by intros [= _ <-]|].
  unfold bind at 1.
  destruct (register_rows (salt req) body db) as [[reg|] db1] eqn:Hrows.
  2:{ intros [= _ <-]. eapply all_admins_grown; [done| |by eapply register_rows_None].
      eapply register_rows_grown; [apply grown_refl|done]. }
  pose proof (register_rows_wf _ _ _ _ _ Hwf Hrows) as Hwf1.
  pose proof (register_rows_grown db _ _ _ _ _ (grown_refl db) Hrows)
    as (_ & Hr1 & Hur1 & _).
  destruct (register_rows_spec _ _ _ _ _ Hwf Hrows)
    as (_ & _ & _ & Hus & Huid & Hcu & Hur & Hadmin & Hin & _).
  destruct (register_role_Some reg db db1) as (u & db2 & Hrole); try done.
  unfold bind. rewrite Hrole. unfold ret. intros [= _ <-].
  destruct (register_role_spec reg db db1 db2 u) as (_ & _ & _ & Hu2); try done.
  apply register_role_userRoles in Hrole as [Hur2 Hr2].
  assert (roleToAssign reg = adminRole reg) as Hassign
    by (unfold roleToAssign; by rewrite Hcu).
  intros v. rewrite Hu2, Hus, Hur2, Hr2, Hassign.
  intros [Hv| ->%list_elem_of_singleton]%elem_of_app.
  - destruct (Hall v Hv) as (r & Hrin & Hname & Hpair).
    exists r. split_and!; [by apply Hr1|done|].
    apply elem_of_app. left. by apply Hur1.
  - exists (adminRole reg). split_and!; [done..|].
    apply elem_of_app. right. by left.
Qed.

Lemma serve_all_admins (req : Request) (db : Db) (name : LayerName) (s : Served) :
  wf db ∧ all_admins db →
  serve req db = Some (name, s) →
  wf (db_after s) ∧ all_admins (db_after s).
Proof.
  assert (∀ d d', accounts d' = accounts d →
                  wf d ∧ all_admins d → wf d' ∧ all_admins d') as Hframe.
  { intros d d' Hacc [Hwf Hall]. split; [by eapply wf_accounts|].
    injection Hacc as Hc Hr Hur Hu _ _ _. unfold all_admins.
    by rewrite Hr, Hur, Hu. }
  assert (∀ u r, preserves (λ db, wf db ∧ all_admins db) (insert_userRoles u r))
    as Hinsert.
  { intros u r d a d' [Hwf Hall] Hd'. split; [by eapply insert_userRoles_wf|].
    eapply all_admins_grown; [done| |].
    - eapply insert_userRoles_grown; [apply grown_refl|done].
    - unfold insert_userRoles in Hd'. by repeat case_match; simplify_eq. }
  apply (serve_keeps (λ db, wf db ∧ all_admins db)).
  - apply register_all_admins.
  - intros ? ? [i|] ?; unfold assign_role; [destruct (int4 i)|]; keep.
  - intros. apply keeps_by_accounts; [done|]. intros P. apply post_objects_accounts.
  - intros. apply keeps_by_accounts; [done|]. intros P. apply put_objects_accounts.
  - intros. apply keeps_by_accounts; [done|]. intros P. apply delete_object_accounts.
Qed.

Lemma reachable_all_admins (db : Db) : reachable db → all_admins db.
Proof.
  intros Hreach.
  apply (reachable_ind (λ db, wf db ∧ all_admins db)); [| |done].
  - intros db0 Hfresh. split; [by apply fresh_wf|].
    destruct Hfresh as (_ & _ & _ & Hu & _). intros u. rewrite Hu.
    by intros ?%elem_of_nil.
  - intros d req _. apply (step_keeps (λ db, wf db ∧ all_admins db)).
    apply serve_all_admins.
Qed.

(** X11: every user the server has created since its tables were empty
    holds the role "admin" with [all] set, so on a database the server
    has got to, wherever its sequences stood at the start, every
    authenticated caller passes the admin check and the create, update
    and delete checks: role listing, user listing and the three
    mutating object routes never answer 403 to a logged-in user. *)
Theorem X11_every_caller_is_admin (req req' : Request) (db : Db) (u : ReqUser) :
  reachable db →
  passport_session req db = (Some u, req') →
  has_role "admin" (Some u) = true
  ∧ (∀ flag, has_permission flag (Some u) = true)
  ∧ (is_Some (required_flag (endpoint req))
     ∨ endpoint req = GET_roles ∨ endpoint req = GET_users →
     ∃ name s, serve req db = Some (name, s) ∧ status (response s) ≠ 403).
Proof.
  intros Hreach Hsession.
  pose proof (passport_session_Some _ _ _ _ Hsession) as (-> & sid & _ & Hu).
  apply deserializeUser_roles in Hu as (Hin & Hid & Hroles).
  destruct (reachable_all_admins db Hreach (row u) Hin) as (r & Hr & Hname & Hpair).
  destruct (reachable_registry db Hreach) as [_ Hreg].
  assert (r ∈ user_roles u) as Hheld.
  { rewrite Hroles. unfold getUserRoles. apply list_elem_of_bind.
    exists (UserRole.mk (User.id (row u)) (Role.id r)).
    split; apply list_elem_of_filter; split; try done. }
  assert (Role.permissions r = adminPermissions) as Hperms.
  { destruct (Hreg r Hr) as [[_ Hp]|[Hn _]]; [done|]. by rewrite Hname in Hn. }
  assert (has_role "admin" (Some u) = true) as Hadmin
    by (apply has_role_spec; eauto).
  assert (∀ flag, has_permission flag (Some u) = true) as Hany.
  { intros flag. apply has_permission_spec. exists r. split; [done|].
    right. by rewrite Hperms. }
  split_and!; try done.
  intros [[flag Hflag]|Hroute].
  - destruct (guarded_route_reply u req db flag Hflag)
      as (name & handler & Hd & _ & Hproceeds).
    destruct (handler db) as [reply db'] eqn:Hh.
    exists name, (mkServed (reply_response reply) db' (reply_session reply)).
    split; [by apply (serve_unfold req req db db' (Some u) name handler)|].
    simpl. exact (Hproceeds (Hany flag)).
  - pose proof (dispatch_authenticated u req) as Hd.
    destruct Hroute as [He|He]; rewrite He in Hd.
    + eexists _, _. split.
      { eapply serve_unfold; [done..|]. unfold get_roles. rewrite Hadmin. simpl.
        reflexivity. }
      done.
    + eexists _, _. split.
      { eapply serve_unfold; [done..|]. by apply get_users_with_passwords. }
      done.
Qed.

(** *** Sessions *)

Lemma serve_register_reply (req : Request) (body : RegisterBody) (db : Db)
    (name : LayerName) (s : Served) :
  endpoint req = POST_auth_register body →
  serve req db = Some (name, s) →
  ∃ req' reply,
    salt req' = salt req
    ∧ register req' body db = (reply, db_after s)
    ∧ response s = reply_response reply
    ∧ session_after s = reply_session reply.
Proof.
  intros He. unfold serve.
  destruct (passport_session req db) as [user req'] eqn:Hsession.
  apply passport_session_request in Hsession as (He' & _ & Hsalt & _).
  rewrite (dispatch_register user req' body) by congruence. simpl.
  destruct (register req' body db) as [reply db'] eqn:Hr. intros [= _ <-].
  by exists req', reply.
Qed.

(** After a registration that went through, the new user's id finds
    the new user, with the admin role. *)
Lemma deserialize_registered (req : Request) (body : RegisterBody) (db db' : Db)
    (reply : Reply) :
  wf db →
  register req body db = (reply, db') →
  status (reply_response reply) = 200 →
  ∃ nu ra,
    reply = login_send (User.id nu)
              (MessageUser "Registration successful"
                 (omit_password (with_roles nu [ra])))
    ∧ deserializeUser (User.id nu) db' = Some (mkReqUser nu [ra])
    ∧ users db' = (users db ++ [nu])%list
    ∧ r_username body = Some (User.username nu)
    ∧ (∃ pw, r_password body = Some pw
             ∧ User.password nu = to_hex (scrypt pw (salt req)) ++ "." ++ salt req).
Proof.
  intros Hwf Hreg H200.
  destruct (register_spec _ _ _ _ _ Hwf Hreg H200)
    as (reg & db1 & Hrows & _ & _ & _ & Hus & _ & _ & Hroles & ->).
  destruct (register_rows_spec _ _ _ _ _ Hwf Hrows)
    as (_ & _ & _ & _ & Huid & _ & _ & _ & _ & _ & Hun).
  exists (newUser reg), (adminRole reg). split_and!; try done.
  - unfold deserializeUser. rewrite Hus, filter_app, filter_cons_True, filter_nil by done.
    assert (filter (λ u, User.id u = User.id (newUser reg)) (users db) = []) as ->.
    { destruct (filter _ (users db)) as [|v l] eqn:Hf; [done|].
      assert (v ∈ filter (λ u, User.id u = User.id (newUser reg)) (users db))
        as [Hv Hin]%list_elem_of_filter by (rewrite Hf; left).
      apply (wf_users _ Hwf) in Hin. lia. }
    simpl. by rewrite Hroles.
  - by eapply register_rows_password.
Qed.

(** X12: the session a successful registration leaves identifies the
    new user: [GET /api/user] with it answers 200 with the very user
    the registration returned, [password] left out, and writes
    nothing.  What is asked of the database is [wf]. *)
Theorem X12_registration_logs_in (req req2 : Request) (body : RegisterBody)
    (db : Db) (s : Served) :
  wf db →
  endpoint req = POST_auth_register body →
  serve req db = Some (auth_register, s) →
  status (response s) = 200 →
  session req2 = session_after s →
  endpoint req2 = GET_user →
  ∃ user,
    json (response s) = MessageUser "Registration successful" user
    ∧ j_password user = None
    ∧ serve req2 (db_after s)
      = Some (auth_user, mkServed (mkResponse 200 (OneUser user)) (db_after s)
                                  (session_after s)).
Proof.
  intros Hwf He Hs H200 Hs2 He2.
  destruct (serve_register_reply _ _ _ _ _ He Hs)
    as (req' & reply & _ & Hreg & Hresp & Hsess).
  rewrite Hresp in H200 |- *. rewrite Hsess in Hs2 |- *.
  destruct (deserialize_registered _ _ _ _ _ Hwf Hreg H200)
    as (nu & ra & -> & Hdes & _). simpl in *.
  eexists. split_and!; try done.
  assert (passport_session req2 (db_after s) = (Some (mkReqUser nu [ra]), req2))
    as Hsession2.
  { unfold passport_session. rewrite Hs2. simpl. by rewrite Hdes. }
  erewrite serve_unfold; [|done| |done].
  2:{ by rewrite dispatch_authenticated, He2. }
  simpl. by rewrite Hs2.
Qed.

(** *** Administration *)

(** X13: [GET /api/users] answers an admin with exactly the users of
    the admin's own company, each with the roles it holds; users of
    other companies are not listed, and nothing is written. *)
Theorem X13_user_listing_is_company_scoped (req req' : Request) (db : Db)
    (u : ReqUser) :
  passport_session req db = (Some u, req') →
  endpoint req = GET_users →
  has_role "admin" (Some u) = true →
  ∃ s,
    serve req db = Some (auth_users, s)
    ∧ status (response s) = 200
    ∧ db_after s = db
    ∧ ∀ j, j ∈ users_in (json (response s)) ↔
        ∃ r, r ∈ users db
             ∧ User.companyId r = User.companyId (row u)
             ∧ j = with_roles r (getUserRoles (User.id r) db).
Proof.
  intros Hsession He Hadmin.
  pose proof (passport_session_Some _ _ _ _ Hsession) as [-> _].
  pose proof (dispatch_authenticated u req) as Hd. rewrite He in Hd.
  eexists. split.
  { eapply serve_unfold; [done..|]. by apply get_users_with_passwords. }
  simpl. split_and!; try done. intros j.
  rewrite list_elem_of_fmap. split.
  - intros (r & -> & [Hc Hin]%list_elem_of_filter). by exists r.
  - intros (r & Hin & Hc & ->). exists r. split; [done|].
    by apply list_elem_of_filter.
Qed.

(** X14: a role assignment that answers 200 was asked by a caller of
    the target user's company, for an existing role the target did not
    hold; it adds that one pair to [user_roles] and from then on the
    role is among the target's roles.  Any other answer leaves the
    database as it was. *)
Theorem X14_role_assignment (req req' : Request) (db : Db) (u : ReqUser)
    (userId roleId : option Z) (name : LayerName) (s : Served) :
  passport_session req db = (Some u, req') →
  endpoint req = POST_users_roles userId roleId →
  serve req db = Some (name, s) →
  (status (response s) = 200 →
   ∃ t rid target,
     userId = Some t ∧ roleId = Some rid
     ∧ target ∈ users db ∧ User.id target = t
     ∧ User.companyId target = User.companyId (row u)
     ∧ (UserRole.mk t rid ∉ userRoles db)
     ∧ userRoles (db_after s) = (userRoles db ++ [UserRole.mk t rid])%list
     ∧ (∃ role, role ∈ roles db ∧ Role.id role = rid)
     ∧ (∀ role, role ∈ roles db → Role.id role = rid →
                role ∈ getUserRoles t (db_after s))
     ∧ companies (db_after s) = companies db ∧ roles (db_after s) = roles db
     ∧ users (db_after s) = users db ∧ objects (db_after s) = objects db)
  ∧ (status (response s) ≠ 200 → db_after s = db).
Proof.
  intros Hsession He.
  pose proof (passport_session_Some _ _ _ _ Hsession) as [-> _].
  unfold serve. rewrite Hsession, dispatch_authenticated, He. simpl.
  destruct (post_users_roles (Some u) req userId roleId db) as [reply db'] eqn:Hpost.
  intros [= _ <-]. simpl. revert Hpost. unfold post_users_roles.
  destruct (has_role "admin" (Some u)); simpl; [|by intros [= <- <-]].
  unfold assign_role, try_catch, bind at 1.
  destruct userId as [t|]; [|by intros [= <- <-]].
  destruct (int4 t); [|by intros [= <- <-]]. unfold select at 1.
  destruct (head (filter (λ v, User.id v = t) (users db))) as [target|] eqn:Htarget;
    [|by intros [= <- <-]].
  apply head_Some_elem_of, list_elem_of_filter in Htarget as [Ht Hin].
  case_bool_decide as Hc; [|by intros [= <- <-]].
  unfold bind, insert_userRoles. destruct roleId as [rid|]; [|by intros [= <- <-]].
  destruct (bool_decide (UserRole.mk t rid ∈ userRoles db)) eqn:Hpair;
    [by intros [= <- <-]|].
  destruct (mem_id User.id t (users db)); [|by intros [= <- <-]].
  destruct (mem_id Role.id rid (roles db)) eqn:Hrole; [|by intros [= <- <-]].
  simpl. unfold ret. intros [= <- <-]. simpl. split; [|done]. intros _.
  apply bool_decide_eq_false in Hpair.
  apply bool_decide_eq_true, list_elem_of_fmap in Hrole as (role & -> & Hrole).
  exists t, (Role.id role), target. split_and!; try done;
    [by injection Hc|by eauto|].
  intros role' Hin' Hid'. unfold getUserRoles. simpl. apply list_elem_of_bind.
  exists (UserRole.mk t (Role.id role)).
  split; apply list_elem_of_filter; split; try done.
  apply elem_of_app. right. by left.
Qed.

(** *** Passwords *)

Lemma split_dot_no_dot (s : string) : no_dot s = true → split_dot s = (s, None).
Proof.
  induction s as [|c s IH]; simpl; [done|].
  intros [Hc Hs]%andb_true_iff. apply negb_true_iff in Hc. rewrite Hc.
  by rewrite IH.
Qed.

Lemma split_dot_hash (hex salt : string) :
  no_dot hex = true → no_dot salt = true →
  split_dot (hex ++ "." ++ salt) = (hex, Some salt).
Proof.
  intros Hhex Hsalt. induction hex as [|c hex IH]; simpl.
  - by rewrite split_dot_no_dot.
  - simpl in Hhex. apply andb_true_iff in Hhex as [Hc Hhex].
    apply negb_true_iff in Hc. rewrite Hc. by rewrite IH.
Qed.

Lemma compare_hashed (pw pw' salt : string) (db : Db) :
  no_dot (to_hex (scrypt pw salt)) = true →
  no_dot salt = true →
  from_hex (to_hex (scrypt pw salt)) = scrypt pw salt →
  length (scrypt pw' salt) = length (scrypt pw salt) →
  crypto_compare (Some pw') (to_hex (scrypt pw salt) ++ "." ++ salt) db
  = (Some (bool_decide (scrypt pw salt = scrypt pw' salt)), db).
Proof.
  intros Hhex Hsalt Hcodec Hlen. unfold crypto_compare.
  rewrite split_dot_hash by done. unfold timingSafeEqual.
  rewrite Hcodec, bool_decide_true by done. done.
Qed.

(** X15: what [crypto.hash] stores, [crypto.compare] accepts for the
    same password and rejects for another one: when the hex codec
    round-trips the derived key and neither it nor the salt contains a
    ["."], comparing a password against the stored hash of [pw] tells
    whether the two derive the same key under the stored salt. *)
Theorem X15_hash_then_compare (pw pw' salt : string) (db : Db) :
  no_dot (to_hex (scrypt pw salt)) = true →
  no_dot salt = true →
  from_hex (to_hex (scrypt pw salt)) = scrypt pw salt →
  length (scrypt pw' salt) = length (scrypt pw salt) →
  ∃ stored,
    crypto_hash salt (Some pw) db = (Some stored, db)
    ∧ crypto_compare (Some pw) stored db = (Some true, db)
    ∧ crypto_compare (Some pw') stored db
      = (Some (bool_decide (scrypt pw salt = scrypt pw' salt)), db).
Proof.
  intros Hhex Hsalt Hcodec Hlen. eexists. split; [done|]. split.
  - rewrite compare_hashed by done. by rewrite bool_decide_true.
  - by apply compare_hashed.
Qed.

Lemma register_200_username_free (req : Request) (body : RegisterBody) (db db' : Db)
    (reply : Reply) :
  register req body db = (reply, db') →
  status (reply_response reply) = 200 →
  filter (λ u, Some (User.username u) = r_username body) (users db) = [].
Proof.
  unfold register, try_catch, bind at 1, user_by_username, select.
  destruct (head _) as [existing|] eqn:Hhead; [by intros [= <- <-]|].
  intros _ _. by apply head_None.
Qed.

(** X16: a user who has just registered can log in: with the username
    and password of a registration that answered 200, both non-empty,
    [POST /api/auth/login] answers 200 with the same user, [password]
    left out, and the same session, and writes nothing.  The hex codec
    is taken to round-trip the derived key, and the hex text and the
    salt to contain no ["."]; what is asked of the database is [wf]. *)
Theorem X16_login_after_registration (req req2 : Request) (body : RegisterBody)
    (db : Db) (s : Served) (name pw : string) :
  wf db →
  endpoint req = POST_auth_register body →
  serve req db = Some (auth_register, s) →
  status (response s) = 200 →
  r_username body = Some name → r_password body = Some pw →
  name ≠ "" → pw ≠ "" →
  no_dot (to_hex (scrypt pw (salt req))) = true →
  no_dot (salt req) = true →
  from_hex (to_hex (scrypt pw (salt req))) = scrypt pw (salt req) →
  endpoint req2 = POST_auth_login (mkLoginBody (Some name) (Some pw)) →
  ∃ user,
    json (response s) = MessageUser "Registration successful" user
    ∧ serve req2 (db_after s)
      = Some (auth_login,
              mkServed (mkResponse 200 (MessageUser "Login successful" user))
                       (db_after s) (session_after s)).
Proof.
  intros Hwf He Hs H200 Hn Hpw Hne Hpwne Hhex Hsalt Hcodec He2.
  destruct (serve_register_reply _ _ _ _ _ He Hs)
    as (req' & reply & Hsalt' & Hreg & Hresp & Hsess).
  rewrite Hresp in H200 |- *. rewrite Hsess.
  pose proof (register_200_username_free _ _ _ _ _ Hreg H200) as Hfree.
  destruct (deserialize_registered _ _ _ _ _ Hwf Hreg H200)
    as (nu & ra & -> & Hdes & Hus & Hun & (pw' & Hpw' & Hstored)).
  rewrite Hsalt' in Hstored. simpl.
  assert (pw' = pw) as -> by congruence.
  assert (User.username nu = name) as Hname by congruence.
  apply deserializeUser_roles in Hdes as (_ & _ & Hroles). simpl in Hroles.
  eexists. split; [done|]. unfold serve.
  destruct (passport_session req2 (db_after s)) as [user2 req2'] eqn:Hsession2.
  apply passport_session_request in Hsession2 as (He2' & _ & _ & _).
  assert (dispatch registerRoutes user2 req2'
          = Some (auth_login, login req2' (mkLoginBody (Some name) (Some pw)))) as ->.
  { rewrite He2 in He2'.
    destruct user2; [rewrite dispatch_authenticated|rewrite dispatch_anonymous];
      by rewrite He2'. }
  simpl. unfold login. simpl.
  rewrite !bool_decide_false by done. simpl.
  unfold try_catch, bind at 1, verify, bind at 1, user_by_username, select.
  rewrite Hus, filter_app, filter_cons_True, filter_nil by by rewrite Hname.
  rewrite Hn in Hfree. rewrite Hfree. simpl.
  unfold bind at 1. rewrite Hstored, compare_hashed by done.
  rewrite bool_decide_true by done.
  unfold bind, select, ret. by rewrite <- Hroles.
Qed.

(** X17: a login that names no user and a login whose password does
    not match get the same answer: whenever no user of that name
    passes the password comparison, the reply is 401 "Invalid username
    or password", no session is opened and nothing is written. *)
Theorem X17_login_rejection (req : Request) (db : Db) (name pw : string) :
  session req = None →
  endpoint req = POST_auth_login (mkLoginBody (Some name) (Some pw)) →
  name ≠ "" → pw ≠ "" →
  (∀ user, user ∈ users db → User.username user = name →
           crypto_compare (Some pw) (User.password user) db = (Some false, db)) →
  serve req db
  = Some (auth_login,
          mkServed (mkResponse 401 (Message "Invalid username or password")) db None).
Proof.
  intros Hs He Hne Hpwne Hwrong. unfold serve.
  rewrite passport_session_None, dispatch_anonymous by done. simpl. rewrite He.
  simpl. unfold login. simpl. rewrite !bool_decide_false by done. simpl.
  unfold try_catch, bind at 1, verify, bind at 1, user_by_username, select.
  destruct (head _) as [user|] eqn:Huser; [|done].
  apply head_Some_elem_of, list_elem_of_filter in Huser as [[= Hname] Hin].
  unfold bind at 1. by rewrite (Hwrong user Hin Hname).
Qed.

(** *** Layers that never answer, requests that never write *)

(** X18: the copies of [GET /api/users], [GET /api/roles] and
    [POST /api/users/:userId/roles] that [routes.ts] registers, the
    ones guarded by [checkRole], never answer a request: the routes of
    the same path in [auth.ts] come first and always respond. *)
Theorem X18_routes_copies_are_shadowed (req : Request) (db : Db)
    (name : LayerName) (s : Served) :
  serve req db = Some (name, s) → shadowed name = false.
Proof.
  unfold serve. destruct (passport_session req db) as [user req'].
  destruct (dispatch registerRoutes user req') as [[name' handler]|] eqn:Hd; [|done].
  simpl. destruct (handler db). intros [= <- _]. revert Hd.
  destruct user; [rewrite dispatch_authenticated|rewrite dispatch_anonymous];
    destruct (endpoint req'); by intros [= <- _].
Qed.

(** X19: logging in, logging out and every GET leave the database as
    it is, whatever they answer. *)
Theorem X19_reads_do_not_write (req : Request) (db : Db)
    (name : LayerName) (s : Served) :
  read_only (endpoint req) = true →
  serve req db = Some (name, s) →
  db_after s = db.
Proof.
  intros Hread. unfold serve.
  destruct (passport_session req db) as [user req'] eqn:Hsession.
  apply passport_session_request in Hsession as (He & _ & _ & _).
  rewrite <- He in Hread.
  destruct (dispatch registerRoutes user req') as [[name' handler]|] eqn:Hd; [|done].
  simpl. destruct (handler db) as [reply db'] eqn:Hh. intros [= _ <-]. simpl.
  assert (keeps (λ d, d = db) handler) as Hkeeps; [|by eapply Hkeeps].
  clear Hh. revert Hd.
  pose proof (login_keeps (λ d, d = db)). pose proof (logout_keeps (λ d, d = db)).
  pose proof (get_user_keeps (λ d, d = db)).
  pose proof (get_roles_keeps (λ d, d = db)).
  pose proof (company_users_keeps (λ d, d = db)).
  pose proof (get_objects_keeps (λ d, d = db)).
  pose proof (get_object_types_keeps (λ d, d = db)).
  destruct user as [u|];
    [rewrite dispatch_authenticated|rewrite dispatch_anonymous];
    destruct (endpoint req'); try done; intros [= <- <-];
    unfold get_users; keep.
Qed.

(** *** The client's flags and the server's checks *)

(** X20: what the client computes from [GET /api/user] agrees with
    what the server decides: [canCreate], [canUpdate] and [canDelete]
    are true exactly when the matching object route would not answer
    403 to the same session, and [isAdmin] exactly when the caller
    passes the server's admin check. *)
Theorem X20_client_flags_match_server (req req' : Request) (db : Db) (u : ReqUser) :
  passport_session req db = (Some u, req') →
  endpoint req = GET_user →
  ∃ user,
    serve req db
    = Some (auth_user, mkServed (mkResponse 200 (OneUser user)) db (session req))
    ∧ isAdmin (Some user) = has_role "admin" (Some u)
    ∧ canCreate (Some user) = has_permission "create" (Some u)
    ∧ canUpdate (Some user) = has_permission "update" (Some u)
    ∧ canDelete (Some user) = has_permission "delete" (Some u)
    ∧ ∀ req2 flag,
        session req2 = session req →
        required_flag (endpoint req2) = Some flag →
        ∃ name s2,
          serve req2 db = Some (name, s2)
          ∧ (status (response s2) ≠ 403 ↔ some_role_permits flag (Some user) = true).
Proof.
  intros Hsession He.
  pose proof (passport_session_Some _ _ _ _ Hsession) as (-> & sid & Hsid & Hu).
  exists (omit_password (req_user_json u)). split.
  { apply (serve_unfold req req db db (Some u) auth_user (get_user (Some u) req)
             (send req 200 (OneUser (omit_password (req_user_json u)))));
      [done| |done].
    by rewrite dispatch_authenticated, He. }
  split_and!; try done.
  intros req2 flag Hs2 Hflag.
  assert (passport_session req2 db = (Some u, req2)) as Hsession2.
  { unfold passport_session. rewrite Hs2, Hsid. simpl. by rewrite Hu. }
  destruct (guarded_route_reply u req2 db flag Hflag)
    as (name & handler & Hd & Hforbidden & Hproceeds).
  destruct (handler db) as [reply db'] eqn:Hh.
  exists name, (mkServed (reply_response reply) db' (reply_session reply)).
  split; [by apply (serve_unfold req2 req2 db db' (Some u) name handler)|].
  simpl in *. change (some_role_permits flag _) with (has_permission flag (Some u)).
  destruct (has_permission flag (Some u)).
  - split; [done|]. intros _. by apply Hproceeds.
  - specialize (Hforbidden eq_refl). simplify_eq/=. split; [|done]. by intros [].
Qed.

End Further.

(** ** Instances on the platform above *)

#[local] Existing Instance toy_platform.


Lemma C7_witness :
  ∃ name s,
    serve (mkRequest (Some 1) (POST_objects (contact "Ann")) 3 "") two_tenants
    = Some (name, s)
    ∧ (status (response s) ≠ 403 ↔ ∃ r, r ∈ user_roles alice ∧ grants "create" r)
    ∧ (status (response s) = 403 →
       response s = mkResponse 403 (Message "Forbidden") ∧ db_after s = two_tenants).
Proof.
  apply (C7_permission_is_or_over_roles
           (mkRequest (Some 1) (POST_objects (contact "Ann")) 3 "")
           (mkRequest (Some 1) (POST_objects (contact "Ann")) 3 "")
           two_tenants alice "create").
  - vm_compute. reflexivity.
  - reflexivity.
Defined.

Lemma C8_witness :
  ∃ name s,
    serve (mkRequest (Some 1) GET_roles 0 "") root_db = Some (name, s)
    ∧ (status (response s) = 200 →
       ∃ r, r ∈ user_roles dave_with_roles ∧ Role.name r = "admin")
    ∧ ((∀ r, r ∈ user_roles dave_with_roles → Role.name r ≠ "admin") →
       response s = mkResponse 403 (Message "Forbidden") ∧ db_after s = root_db).
Proof.
  apply (C8_admin_gate_by_role_name
           (mkRequest (Some 1) GET_roles 0 "") (mkRequest (Some 1) GET_roles 0 "")
           root_db dave_with_roles).
  - vm_compute. reflexivity.
  - reflexivity.
Defined.

Lemma C10_witness :
  ∃ session',
    serve alice_registers one_tenant
    = Some (auth_register,
            mkServed (mkResponse 400 (Message "Username already exists"))
                     one_tenant session').
Proof.
  apply (C10_register_taken_username alice_registers one_tenant
           (mkRegisterBody (Some "alice") (Some "x") (Some "Acme")) "alice").
  - reflexivity.
  - reflexivity.
  - apply (bool_decide_unpack _). vm_compute. exact I.
Defined.

Lemma C9_witness :
  ∃ s1 s2,
    serve alice_registers after_rejected_registration = Some (auth_register, s1)
    ∧ serve bob_registers (db_after s1) = Some (auth_register, s2)
    ∧ (∃ reg db1,
         register_rows "a1" (mkRegisterBody (Some "alice") (Some "x") (Some "Acme"))
                       after_rejected_registration = (Some reg, db1)
         ∧ Some "Acme" = Some (Company.name (company reg))
         ∧ (Company.id (company reg)
            ∉ (Company.id <$> companies after_rejected_registration))
         ∧ companies (db_after s1)
           = (companies after_rejected_registration ++ [company reg])%list
         ∧ companyUsers reg = [newUser reg])
    ∧ ∃ c1 c2,
        companies (db_after s2)
        = (companies after_rejected_registration ++ [c1; c2])%list
        ∧ Some "Acme" = Some (Company.name c1)
        ∧ Company.name c2 = Company.name c1
        ∧ Company.id c2 ≠ Company.id c1.
Proof.
  eexists _, _.
  split; [vm_compute; reflexivity|]. split; [vm_compute; reflexivity|].
  edestruct (C9_registration_inserts_new_company alice_registers bob_registers
               (mkRegisterBody (Some "alice") (Some "x") (Some "Acme"))
               (mkRegisterBody (Some "bob") (Some "y") (Some "Acme"))
               after_rejected_registration) as [Hone Htwo].
  - apply (bool_decide_unpack _). vm_compute. exact I.
  - reflexivity.
  - vm_compute. reflexivity.
  - reflexivity.
  - split; [exact Hone|]. apply Htwo; [reflexivity|reflexivity| |reflexivity].
    vm_compute. reflexivity.
Defined.

(** ** Instances of the further properties *)

Lemma two_tenants_reachable : reachable two_tenants.
Proof.
  exists empty_db, [alice_registers; bob_registers].
  split; [repeat split|reflexivity].
Defined.

Lemma X2_witness :
  ∃ s,
    serve (as_alice (DELETE_objects (Some 1))) two_catalogs
    = Some (routes_delete_objects, s)
    ∧ response s = mkResponse 200 (Message "Object deleted successfully")
    ∧ accounts (db_after s) = accounts two_catalogs
    ∧ (∀ o', o' ∈ objects (db_after s) ↔ o' ∈ objects two_catalogs ∧ o' ≠ ann)
    ∧ ∃ s',
        serve (as_alice (DELETE_objects (Some 1))) (db_after s)
        = Some (routes_delete_objects, s')
        ∧ response s' = mkResponse 404 (Message "Object not found")
        ∧ db_after s' = db_after s.
Proof.
  apply (X2_delete_removes_exactly_one
           (as_alice (DELETE_objects (Some 1))) (as_alice (DELETE_objects (Some 1)))
           two_catalogs alice 1 ann).
  - apply (bool_decide_unpack _). vm_compute. exact I.
  - vm_compute. reflexivity.
  - reflexivity.
  - vm_compute. reflexivity.
  - apply (bool_decide_unpack _). vm_compute. exact I.
  - reflexivity.
  - vm_compute. reflexivity.
  - reflexivity.
Defined.

Lemma X3_witness :
  ∃ s,
    serve (as_alice (PUT_objects (Some 1) to_company_2)) two_catalogs
    = Some (routes_put_objects, s)
    ∧ accounts (db_after s) = accounts two_catalogs
    ∧ objects_seq (db_after s) = objects_seq two_catalogs
    ∧ Forall2 (λ o o', Object.id o' = Object.id o
                       ∧ Object.createdAt o' = Object.createdAt o
                       ∧ Object.updatedAt o' = Object.updatedAt o
                       ∧ (Some (Object.id o) ≠ Some 1 → o' = o))
              (objects two_catalogs) (objects (db_after s)).
Proof.
  eexists. split; [vm_compute; reflexivity|].
  apply (X3_put_keeps_ids_and_timestamps
           (as_alice (PUT_objects (Some 1) to_company_2)) two_catalogs (Some 1)
           to_company_2 routes_put_objects).
  - reflexivity.
  - vm_compute. reflexivity.
  - reflexivity.
Defined.

Lemma X4_witness :
  ∃ s o,
    serve (mkRequest (Some 1) (POST_objects (contact "Ann")) 3 "") two_tenants
    = Some (routes_post_objects, s)
    ∧ json (response s) = OneObject (Some o)
    ∧ objects (db_after s) = (objects two_tenants ++ [o])%list
    ∧ Object.companyId o = 1.
Proof.
  assert ({s | serve (mkRequest (Some 1) (POST_objects (contact "Ann")) 3 "")
                     two_tenants = Some (routes_post_objects, s)
               ∧ status (response s) = 200}) as (s & Hserve & Hstatus).
  { eexists. split; [vm_compute; reflexivity|reflexivity]. }
  destruct (X4_post_then_list
              (mkRequest (Some 1) (POST_objects (contact "Ann")) 3 "")
              (mkRequest (Some 1) (POST_objects (contact "Ann")) 3 "")
              two_tenants alice (contact "Ann") routes_post_objects s)
    as (o & Hjson & Hobjects & _ & _ & _ & _ & _ & Hcompany & _).
  - apply (bool_decide_unpack _). vm_compute. exact I.
  - vm_compute. reflexivity.
  - reflexivity.
  - exact Hserve.
  - exact Hstatus.
  - exists s, o. split; [exact Hserve|]. split; [exact Hjson|].
    split; [exact Hobjects|exact Hcompany].
Defined.

Lemma X5_witness :
  ∃ reply db',
    get_objects (Some alice) (as_alice (GET_objects contacts_only)) contacts_only
                two_catalogs = (reply, db')
    ∧ StronglySorted (λ a b, (Object.createdAt b ≤ Object.createdAt a)%Z)
                     (objects_in (json (reply_response reply))).
Proof.
  eexists _, _. split; [vm_compute; reflexivity|].
  edestruct (X5_listing_sorted_by_createdAt (Some alice)
               (as_alice (GET_objects contacts_only)) contacts_only two_catalogs)
    as [Hdesc _].
  - vm_compute. reflexivity.
  - reflexivity.
  - apply Hdesc; [discriminate|discriminate|discriminate].
Defined.

Lemma X8_witness :
  NoDup (Role.name <$> roles two_tenants)
  ∧ (length (roles two_tenants) ≤ 2)%nat
  ∧ ∀ r, r ∈ roles two_tenants →
      (Role.name r = "admin" ∧ Role.permissions r = adminPermissions)
      ∨ (Role.name r = "user" ∧ Role.permissions r = userPermissions).
Proof. apply (X8_roles_are_admin_and_user two_tenants), two_tenants_reachable. Defined.



Lemma X11_witness :
  has_role "admin" (Some alice) = true
  ∧ (∀ flag, has_permission flag (Some alice) = true)
  ∧ (is_Some (required_flag (endpoint (as_alice GET_roles)))
     ∨ endpoint (as_alice GET_roles) = GET_roles
     ∨ endpoint (as_alice GET_roles) = GET_users →
     ∃ name s,
       serve (as_alice GET_roles) two_tenants = Some (name, s)
       ∧ status (response s) ≠ 403).
Proof.
  apply (X11_every_caller_is_admin (as_alice GET_roles) (as_alice GET_roles)
           two_tenants alice).
  - exact two_tenants_reachable.
  - vm_compute. reflexivity.
Defined.

Lemma X12_witness :
  ∃ s user,
    serve alice_registers empty_db = Some (auth_register, s)
    ∧ json (response s) = MessageUser "Registration successful" user
    ∧ j_password user = None
    ∧ serve (as_alice GET_user) (db_after s)
      = Some (auth_user, mkServed (mkResponse 200 (OneUser user)) (db_after s)
                                  (session_after s)).
Proof.
  assert ({s | serve alice_registers empty_db = Some (auth_register, s)
               ∧ status (response s) = 200
               ∧ session (as_alice GET_user) = session_after s})
    as (s & Hserve & Hstatus & Hsession).
  { eexists. split; [vm_compute; reflexivity|]. split; reflexivity. }
  destruct (X12_registration_logs_in alice_registers (as_alice GET_user)
              (mkRegisterBody (Some "alice") (Some "x") (Some "Acme")) empty_db s)
    as (user & Hjson & Hpassword & Huser).
  - apply (bool_decide_unpack _). vm_compute. exact I.
  - reflexivity.
  - exact Hserve.
  - exact Hstatus.
  - exact Hsession.
  - reflexivity.
  - exists s, user. split; [exact Hserve|]. split; [exact Hjson|].
    split; [exact Hpassword|exact Huser].
Defined.

Lemma X13_witness :
  ∃ s,
    serve (as_alice GET_users) two_tenants = Some (auth_users, s)
    ∧ status (response s) = 200
    ∧ db_after s = two_tenants
    ∧ ∀ j, j ∈ users_in (json (response s)) ↔
        ∃ r, r ∈ users two_tenants
             ∧ User.companyId r = User.companyId (row alice)
             ∧ j = with_roles r (getUserRoles (User.id r) two_tenants).
Proof.
  apply (X13_user_listing_is_company_scoped (as_alice GET_users) (as_alice GET_users)
           two_tenants alice).
  - vm_compute. reflexivity.
  - reflexivity.
  - vm_compute. reflexivity.
Defined.

Lemma X14_witness :
  ∃ s,
    serve (as_alice (POST_users_roles (Some 1) (Some 2))) two_tenants
    = Some (auth_users_roles, s)
    ∧ status (response s) = 200
    ∧ ∃ t rid,
        Some 1 = Some t ∧ Some 2 = Some rid
        ∧ userRoles (db_after s) = (userRoles two_tenants ++ [UserRole.mk t rid])%list.
Proof.
  assert ({s | serve (as_alice (POST_users_roles (Some 1) (Some 2))) two_tenants
               = Some (auth_users_roles, s)
               ∧ status (response s) = 200}) as (s & Hserve & Hstatus).
  { eexists. split; [vm_compute; reflexivity|reflexivity]. }
  destruct (X14_role_assignment
              (as_alice (POST_users_roles (Some 1) (Some 2)))
              (as_alice (POST_users_roles (Some 1) (Some 2)))
              two_tenants alice (Some 1) (Some 2) auth_users_roles s)
    as [Hok _].
  - vm_compute. reflexivity.
  - reflexivity.
  - exact Hserve.
  - destruct (Hok Hstatus)
      as (t & rid & target & Ht & Hrid & _ & _ & _ & _ & Hur & _).
    exists s. split; [exact Hserve|]. split; [exact Hstatus|].
    exists t, rid. split; [exact Ht|]. split; [exact Hrid|exact Hur].
Defined.

Lemma X15_witness :
  ∃ stored,
    crypto_hash "a1" (Some "x") empty_db = (Some stored, empty_db)
    ∧ crypto_compare (Some "x") stored empty_db = (Some true, empty_db)
    ∧ crypto_compare (Some "z") stored empty_db
      = (Some (bool_decide (scrypt "x" "a1" = scrypt "z" "a1")), empty_db).
Proof.
  apply (X15_hash_then_compare "x" "z" "a1" empty_db); reflexivity.
Defined.

Lemma X16_witness :
  ∃ s user,
    serve alice_registers empty_db = Some (auth_register, s)
    ∧ json (response s) = MessageUser "Registration successful" user
    ∧ serve alice_logs_in (db_after s)
      = Some (auth_login,
              mkServed (mkResponse 200 (MessageUser "Login successful" user))
                       (db_after s) (session_after s)).
Proof.
  assert ({s | serve alice_registers empty_db = Some (auth_register, s)
               ∧ status (response s) = 200}) as (s & Hserve & Hstatus).
  { eexists. split; [vm_compute; reflexivity|reflexivity]. }
  destruct (X16_login_after_registration alice_registers alice_logs_in
              (mkRegisterBody (Some "alice") (Some "x") (Some "Acme")) empty_db
              s "alice" "x")
    as (user & Hjson & Hlogin).
  - apply (bool_decide_unpack _). vm_compute. exact I.
  - reflexivity.
  - exact Hserve.
  - exact Hstatus.
  - reflexivity.
  - reflexivity.
  - discriminate.
  - discriminate.
  - reflexivity.
  - reflexivity.
  - reflexivity.
  - reflexivity.
  - exists s, user. split; [exact Hserve|]. split; [exact Hjson|exact Hlogin].
Defined.

Lemma X17_witness :
  serve alice_mistypes one_tenant
  = Some (auth_login,
          mkServed (mkResponse 401 (Message "Invalid username or password"))
                   one_tenant None).
Proof.
  apply (X17_login_rejection alice_mistypes one_tenant "alice" "z").
  - reflexivity.
  - reflexivity.
  - discriminate.
  - discriminate.
  - intros user Hin _.
    assert (users one_tenant = [User.mk 1 "alice" "xa1.a1" 1]) as Hus by reflexivity.
    rewrite Hus in Hin. apply list_elem_of_singleton in Hin. rewrite Hin.
    vm_compute. reflexivity.
Defined.

Lemma X18_witness :
  ∃ name s,
    serve (as_alice GET_users) two_tenants = Some (name, s)
    ∧ shadowed name = false.
Proof.
  eexists _, _. split; [vm_compute; reflexivity|].
  eapply (X18_routes_copies_are_shadowed (as_alice GET_users) two_tenants).
  vm_compute. reflexivity.
Defined.

Lemma X19_witness :
  ∃ name s,
    serve (as_alice (GET_objects contacts_only)) two_catalogs = Some (name, s)
    ∧ db_after s = two_catalogs.
Proof.
  eexists _, _. split; [vm_compute; reflexivity|].
  eapply (X19_reads_do_not_write (as_alice (GET_objects contacts_only)) two_catalogs).
  - reflexivity.
  - vm_compute. reflexivity.
Defined.

Lemma X20_witness :
  ∃ user,
    serve (as_alice GET_user) two_tenants
    = Some (auth_user,
            mkServed (mkResponse 200 (OneUser user)) two_tenants (Some 1))
    ∧ isAdmin (Some user) = has_role "admin" (Some alice)
    ∧ canCreate (Some user) = has_permission "create" (Some alice)
    ∧ canUpdate (Some user) = has_permission "update" (Some alice)
    ∧ canDelete (Some user) = has_permission "delete" (Some alice).
Proof.
  edestruct (X20_client_flags_match_server (as_alice GET_user) (as_alice GET_user)
               two_tenants alice)
    as (user & Hserve & Hadmin & Hcreate & Hupdate & Hdelete & _).
  - vm_compute. reflexivity.
  - reflexivity.
  - exists user. split; [exact Hserve|]. split; [exact Hadmin|].
    split; [exact Hcreate|]. split; [exact Hupdate|exact Hdelete].
Defined.
